(** * speech-demo: the capture, resample, buffer and paced-delivery pipeline

    Shallow embedding of [ui/src/App.tsx].

    Numbers.  JavaScript numbers (IEEE doubles) and the Float32Array
    elements are idealised as exact rationals [Q]; [Math.round],
    [Math.floor], [Math.max] and [Math.min] are the exact functions.  The
    one place where the source can leave the finite numbers, the division
    by a zero source rate, is written out in [resampleLinear].

    Control.  The component is single-threaded and asynchronous.  Every
    [async] function is cut at its [await]s: a handler runs from an event
    to the next [await], where it leaves a [Task] in the state; the
    environment later settles that task with an [Outcome].  React state
    ([isRecording], [transcript], ...) is read by a handler as last set,
    i.e. the component is taken to have re-rendered between two events.

    [Binary64] computes the output length of the resampler in IEEE
    doubles, as the source does, to compare it with the exact one at the
    block sizes and rates the capture callback meets. *)

From Stdlib Require Import String List Bool Arith ZArith QArith Qround Lia Lqa.
From Stdlib Require Import Uint63 Floats.
Import ListNotations.

Local Open Scope Q_scope.

(** ** Typed arrays *)

Module Float32Array.

Definition t := list Q.

(** [new Float32Array(n)]: [n] zeros. *)
Definition make (n : nat) : t := repeat 0 n.

(** [out.set(src, offset)]: copies [src] into [out] at [offset];
    a RangeError ([None]) when [src] does not fit. *)
Definition set (out src : t) (offset : nat) : option t :=
  if (offset + length src <=? length out)%nat
  then Some (firstn offset out ++ src ++ skipn (offset + length src) out)
  else None.

(** [a.slice(b, e)] and [a.slice(b)]: indices clamp to the length. *)
Definition slice (a : t) (b e : nat) : t := firstn (e - b) (skipn b a).
Definition slice_from (a : t) (b : nat) : t := skipn b a.

(** [a[i]] for an integer [i]; out of range reads give [undefined],
    which the arithmetic of the caller turns into NaN: the model gives 0
    there, and [resample_reads_in_range] shows the resampler never
    reads out of range. *)
Definition get (a : t) (i : Z) : Q :=
  if (i <? 0)%Z then 0 else nth (Z.to_nat i) a 0.

End Float32Array.

(** ** Constants and helpers of the component *)

Definition Math_floor (x : Q) : Z := Qfloor x.

(** [Math.round]: the nearest integer, ties towards plus infinity. *)
Definition Math_round (x : Q) : Z := Qfloor (x + (1 # 2)).

Definition TARGET_SR : Q := 16000.
Definition CHUNK_MS : Q := 500.

(** Line 87: [Math.round(TARGET_SR * (CHUNK_MS / 1000))]. *)
Definition chunkSamples : nat :=
  Z.to_nat (Math_round (TARGET_SR * (CHUNK_MS / 1000))).

(** Lines 32-37. *)
Definition concatFloat32 (a b : Float32Array.t) : option Float32Array.t :=
  let out := Float32Array.make (length a + length b) in
  match Float32Array.set out a 0 with
  | Some out1 => Float32Array.set out1 b (length a)
  | None => None
  end.

(** Lines 45-49: the body of the resampling loop at output index [i]. *)
Definition resample_at (input : Float32Array.t) (ratio : Q) (i : nat) : Q :=
  let x := inject_Z (Z.of_nat i) / ratio in
  let x0 := Math_floor x in
  let x1 := Z.min (x0 + 1) (Z.of_nat (length input) - 1) in
  let t := x - inject_Z x0 in
  Float32Array.get input x0 * (1 - t) + Float32Array.get input x1 * t.

(** Line 42: [Math.max(0, Math.round(input.length * ratio))]. *)
Definition resample_outLen (n : nat) (ratio : Q) : nat :=
  Z.to_nat (Z.max 0 (Math_round (inject_Z (Z.of_nat n) * ratio))).

(** Lines 39-52.  [None] is the RangeError of [new Float32Array(Infinity)]:
    with [srcSr] zero and [dstSr] positive the ratio is plus infinity, so
    a non-empty input asks for an infinite array; an empty one gives
    [0 * Infinity = NaN], and [new Float32Array(NaN)] is empty.  With
    [dstSr] negative the ratio is minus infinity and [Math.max] gives 0
    (NaN for an empty input, empty array again). *)
Definition resampleLinear (input : Float32Array.t) (srcSr dstSr : Q)
  : option Float32Array.t :=
  if Qeq_bool srcSr dstSr then Some input
  else if Qeq_bool srcSr 0 then
    if (0 <? Qnum dstSr)%Z && negb (length input =? 0)%nat then None
    else Some []
  else
    let ratio := dstSr / srcSr in
    let outLen := resample_outLen (length input) ratio in
    Some (map (resample_at input ratio) (seq 0 outLen)).

(** ** The output length in IEEE doubles *)

Module Binary64.

(** An integer below 2^53 as a double. *)
Definition of_Z (z : Z) : float := PrimFloat.of_uint63 (Uint63.of_Z z).

(** The rational a finite double stands for. *)
Definition value (x : float) : option Q :=
  match Prim2SF x with
  | S754_zero _ => Some 0
  | S754_finite s m e =>
      Some (inject_Z (if s then Z.neg m else Z.pos m) * Qpower 2 e)
  | _ => None
  end.

(** [Math.round] of a finite double is exact. *)
Definition round (x : float) : option Z := option_map Math_round (value x).

(** Lines 41-42 in doubles: [dstSr / srcSr] is rounded, then its product
    with the length is rounded again. *)
Definition outLen (n srcSr dstSr : Z) : option Z :=
  let ratio := PrimFloat.div (of_Z dstSr) (of_Z srcSr) in
  option_map (Z.max 0) (round (PrimFloat.mul (of_Z n) ratio)).

(** Sample rates of audio hardware. *)
Definition rates : list Z :=
  [8000; 11025; 12000; 22050; 24000; 32000; 44100; 48000; 88200; 96000;
   176400; 192000; 384000]%Z.

(** The doubles give the exact output length for [n] samples at [srcSr]. *)
Definition agrees (srcSr n : Z) : bool :=
  match outLen n srcSr 16000 with
  | Some k =>
      (k =? Z.of_nat (resample_outLen (Z.to_nat n)
                        (TARGET_SR / inject_Z srcSr)))%Z
  | None => false
  end.

(** The buffer sizes a script processor can be created with; the
    component asks for 4096 (line 161). *)
Definition bufferSizes : list Z := [256; 512; 1024; 2048; 4096; 8192; 16384]%Z.

End Binary64.

(** ** SegmentBuffer operations, as the pump performs them *)

(** Lines 90-92: the length test of the drain loop and the two slices. *)
Definition popChunk (C : nat) (buf : Float32Array.t)
  : option (Float32Array.t * Float32Array.t) :=
  if (C <=? length buf)%nat
  then Some (Float32Array.slice buf 0 C, Float32Array.slice_from buf C)
  else None.


(** ** The component state *)

Inductive Status := Idle | Recording | Error.

(** The JSON bodies the three endpoints answer with, as far as the
    component reads them. *)
Record Json := mkJson {
  session_id : option string;
  json_language : option string;
  json_text : option string
}.

(** A suspended [async] function: which one, and at which [await]. *)
Inductive Task :=
| HandleStart_apiStart                           (* line 142 *)
| HandleStart_getUserMedia                       (* line 144 *)
| HandleStart_stopAudioPipeline (closing : bool) (* line 181 *)
| HandleStop_stopAudioPipeline (closing : bool)  (* line 191 *)
| HandleStop_apiFinish                           (* line 195 *)
| Pump_apiPushChunk.                             (* line 95 *)

(** What the environment settles a task with. *)
Inductive Outcome :=
| Fulfilled (j : Json)      (* a fetch answered ok with body [j] *)
| Stream (sampleRate : Q)   (* getUserMedia gave a stream; the rate is
                               that of the AudioContext made for it *)
| Settled                   (* stopAudioPipeline returned *)
| Rejected (err : string).  (* the awaited call threw; [err] is the
                               thrown value as the template prints it *)

(** The requests seen by the transport, in the order they are issued. *)
Inductive NetCall :=
| NetStart
| NetChunk (sid : string) (chunk : Float32Array.t)
| NetFinish (sid : string).

(** React state (first five fields), the refs, and the environment: the
    installed [onaudioprocess] handler with the sample rate of the audio
    context it captured, the suspended tasks and the transport log.
    [sourceRef] and [mediaStreamRef] are set and cleared together with
    [audioContextRef] and guard calls without effect on this state; they
    are left out.  The object creations of lines 153-162 are taken to
    succeed.  One script processor is followed at a time, the one created
    last. *)
Record State := mkState {
  isRecording : bool;
  transcript : string;
  language : string;
  status : Status;
  errorMsg : string;
  sessionIdRef : option string;
  audioContextRef : option Q;
  processorRef : bool;
  bufferRef : Float32Array.t;
  pushingRef : bool;
  recordingRef : bool;
  onaudioprocess : option Q;
  tasks : list Task;
  net : list NetCall
}.

Definition set_isRecording (v : bool) (s : State) : State :=
  mkState v (transcript s) (language s) (status s) (errorMsg s) (sessionIdRef s) (audioContextRef s) (processorRef s) (bufferRef s) (pushingRef s) (recordingRef s) (onaudioprocess s) (tasks s) (net s).

Definition set_transcript (v : string) (s : State) : State :=
  mkState (isRecording s) v (language s) (status s) (errorMsg s) (sessionIdRef s) (audioContextRef s) (processorRef s) (bufferRef s) (pushingRef s) (recordingRef s) (onaudioprocess s) (tasks s) (net s).

Definition set_language (v : string) (s : State) : State :=
  mkState (isRecording s) (transcript s) v (status s) (errorMsg s) (sessionIdRef s) (audioContextRef s) (processorRef s) (bufferRef s) (pushingRef s) (recordingRef s) (onaudioprocess s) (tasks s) (net s).

Definition set_status (v : Status) (s : State) : State :=
  mkState (isRecording s) (transcript s) (language s) v (errorMsg s) (sessionIdRef s) (audioContextRef s) (processorRef s) (bufferRef s) (pushingRef s) (recordingRef s) (onaudioprocess s) (tasks s) (net s).

Definition set_errorMsg (v : string) (s : State) : State :=
  mkState (isRecording s) (transcript s) (language s) (status s) v (sessionIdRef s) (audioContextRef s) (processorRef s) (bufferRef s) (pushingRef s) (recordingRef s) (onaudioprocess s) (tasks s) (net s).

Definition set_sessionIdRef (v : option string) (s : State) : State :=
  mkState (isRecording s) (transcript s) (language s) (status s) (errorMsg s) v (audioContextRef s) (processorRef s) (bufferRef s) (pushingRef s) (recordingRef s) (onaudioprocess s) (tasks s) (net s).

Definition set_audioContextRef (v : option Q) (s : State) : State :=
  mkState (isRecording s) (transcript s) (language s) (status s) (errorMsg s) (sessionIdRef s) v (processorRef s) (bufferRef s) (pushingRef s) (recordingRef s) (onaudioprocess s) (tasks s) (net s).

Definition set_processorRef (v : bool) (s : State) : State :=
  mkState (isRecording s) (transcript s) (language s) (status s) (errorMsg s) (sessionIdRef s) (audioContextRef s) v (bufferRef s) (pushingRef s) (recordingRef s) (onaudioprocess s) (tasks s) (net s).

Definition set_bufferRef (v : Float32Array.t) (s : State) : State :=
  mkState (isRecording s) (transcript s) (language s) (status s) (errorMsg s) (sessionIdRef s) (audioContextRef s) (processorRef s) v (pushingRef s) (recordingRef s) (onaudioprocess s) (tasks s) (net s).

Definition set_pushingRef (v : bool) (s : State) : State :=
  mkState (isRecording s) (transcript s) (language s) (status s) (errorMsg s) (sessionIdRef s) (audioContextRef s) (processorRef s) (bufferRef s) v (recordingRef s) (onaudioprocess s) (tasks s) (net s).

Definition set_recordingRef (v : bool) (s : State) : State :=
  mkState (isRecording s) (transcript s) (language s) (status s) (errorMsg s) (sessionIdRef s) (audioContextRef s) (processorRef s) (bufferRef s) (pushingRef s) v (onaudioprocess s) (tasks s) (net s).

Definition set_onaudioprocess (v : option Q) (s : State) : State :=
  mkState (isRecording s) (transcript s) (language s) (status s) (errorMsg s) (sessionIdRef s) (audioContextRef s) (processorRef s) (bufferRef s) (pushingRef s) (recordingRef s) v (tasks s) (net s).

Definition set_tasks (v : list Task) (s : State) : State :=
  mkState (isRecording s) (transcript s) (language s) (status s) (errorMsg s) (sessionIdRef s) (audioContextRef s) (processorRef s) (bufferRef s) (pushingRef s) (recordingRef s) (onaudioprocess s) v (net s).

Definition set_net (v : list NetCall) (s : State) : State :=
  mkState (isRecording s) (transcript s) (language s) (status s) (errorMsg s) (sessionIdRef s) (audioContextRef s) (processorRef s) (bufferRef s) (pushingRef s) (recordingRef s) (onaudioprocess s) (tasks s) v.

Definition initial : State :=
  mkState false "" "" Idle "" None None false [] false false None [] [].

(** ** JavaScript values *)

(** [o || '']. *)
Definition or_empty (o : option string) : string :=
  match o with
  | Some s => s
  | None => ""%string
  end.

(** [if (sessionIdRef.current)]: [null], [undefined] and the empty string
    are falsy.  Gives the id when it is truthy. *)
Definition truthy (o : option string) : option string :=
  match o with
  | Some EmptyString => None
  | Some s => Some s
  | None => None
  end.

(** ** The network calls: the part before the [await] *)

Definition call (c : NetCall) (t : Task) (s : State) : State :=
  set_tasks (tasks s ++ [t]) (set_net (net s ++ [c]) s).

Definition suspend (t : Task) (s : State) : State :=
  set_tasks (tasks s ++ [t]) s.

(** ** pump (lines 83-107) *)

(** Lines 104-106. *)
Definition pump_finally (s : State) : State := set_pushingRef false s.

(** Lines 90-99, from the loop test.  The loop runs until it suspends in
    [apiPushChunk] or its test fails; [fuel] bounds the iterations and
    [None] is fuel exhausted ([pump_loop_total]: never with the fuel
    [drain] gives). *)
Fixpoint pump_loop (fuel : nat) (s : State) : option State :=
  if recordingRef s && (chunkSamples <=? length (bufferRef s))%nat then
    match fuel with
    | O => None
    | S fuel' =>
        let chunk := Float32Array.slice (bufferRef s) 0 chunkSamples in
        let s := set_bufferRef
                   (Float32Array.slice_from (bufferRef s) chunkSamples) s in
        match truthy (sessionIdRef s) with
        | Some sid => Some (call (NetChunk sid chunk) Pump_apiPushChunk s)
        | None => pump_loop fuel' s
        end
    end
  else Some (pump_finally s).

Definition drain (s : State) : State :=
  match pump_loop (length (bufferRef s)) s with
  | Some s' => s'
  | None => s
  end.

(** Lines 84-89: the entry of [pump]. *)
Definition pump (s : State) : State :=
  if pushingRef s then s else drain (set_pushingRef true s).

(** Lines 96-97, then the loop again; lines 100-106 when the call threw. *)
Definition pump_resume (o : Outcome) (s : State) : option State :=
  match o with
  | Fulfilled j =>
      Some (drain (set_transcript (or_empty (json_text j))
                     (set_language (or_empty (json_language j)) s)))
  | Rejected err =>
      Some (pump_finally
              (set_status Error
                 (set_errorMsg ("Backend error: " ++ err) s)))
  | _ => None
  end.

(** ** stopAudioPipeline (lines 109-127) *)

(** Lines 123-126. *)
Definition stopAudioPipeline_end (s : State) : State :=
  set_audioContextRef None (set_processorRef false s).

(** Lines 110-116, up to the [await] of [close()]; the boolean tells
    whether the function is suspended there.  Without an audio context it
    runs to its end at once. *)
Definition stopAudioPipeline_begin (s : State) : State * bool :=
  let s1 := if processorRef s then set_onaudioprocess None s else s in
  match audioContextRef s1 with
  | Some _ => (s1, true)
  | None => (stopAudioPipeline_end s1, false)
  end.

Definition stopAudioPipeline_resume (closing : bool) (s : State) : State :=
  if closing then stopAudioPipeline_end s else s.

(** ** The capture callback (lines 164-170) *)

Definition audioprocess (sampleRate : Q) (input : Float32Array.t) (s : State)
  : State :=
  if negb (recordingRef s) then s
  else
    match resampleLinear input sampleRate TARGET_SR with
    | None => s
    | Some resampled =>
        match concatFloat32 (bufferRef s) resampled with
        | None => s
        | Some b =>
            let s := set_bufferRef b s in
            if negb (pushingRef s) then pump s else s
        end
    end.

(** ** handleStart (lines 129-183) *)

Definition handleStart (s : State) : State :=
  if isRecording s then s
  else
    let s := set_transcript "" s in
    let s := set_language "" s in
    let s := set_errorMsg "" s in
    let s := set_bufferRef [] s in
    let s := set_status Recording s in
    let s := set_isRecording true s in
    let s := set_recordingRef true s in
    call NetStart HandleStart_apiStart s.

(** Lines 174-181. *)
Definition handleStart_catch (err : string) (s : State) : State :=
  let s := set_errorMsg ("Start failed: " ++ err) s in
  let s := set_status Error s in
  let s := set_isRecording false s in
  let s := set_recordingRef false s in
  let s := set_sessionIdRef None s in
  let (s, closing) := stopAudioPipeline_begin s in
  suspend (HandleStart_stopAudioPipeline closing) s.

Definition handleStart_apiStart (o : Outcome) (s : State) : option State :=
  match o with
  | Fulfilled j =>
      Some (suspend HandleStart_getUserMedia
              (set_sessionIdRef (session_id j) s))
  | Rejected err => Some (handleStart_catch err s)
  | _ => None
  end.

(** Lines 153-173. *)
Definition handleStart_getUserMedia (o : Outcome) (s : State) : option State :=
  match o with
  | Stream sampleRate =>
      let s := set_audioContextRef (Some sampleRate) s in
      let s := set_processorRef true s in
      Some (set_onaudioprocess (Some sampleRate) s)
  | Rejected err => Some (handleStart_catch err s)
  | _ => None
  end.

Definition teardown_outcome (o : Outcome) : bool :=
  match o with
  | Settled | Rejected _ => true
  | _ => false
  end.

Definition handleStart_stopAudioPipeline (closing : bool) (o : Outcome)
  (s : State) : option State :=
  if teardown_outcome o then Some (stopAudioPipeline_resume closing s)
  else None.

(** ** handleStop (lines 185-209) *)

Definition handleStop (s : State) : State :=
  if negb (isRecording s) then s
  else
    let s := set_recordingRef false s in
    let s := set_isRecording false s in
    let (s, closing) := stopAudioPipeline_begin s in
    suspend (HandleStop_stopAudioPipeline closing) s.

(** Lines 204-208. *)
Definition handleStop_finally (s : State) : State :=
  set_pushingRef false (set_bufferRef [] (set_sessionIdRef None s)).

(** Lines 193-199, after [stopAudioPipeline] returned. *)
Definition handleStop_stopAudioPipeline (closing : bool) (o : Outcome)
  (s : State) : option State :=
  if teardown_outcome o then
    let s := stopAudioPipeline_resume closing s in
    match truthy (sessionIdRef s) with
    | Some sid => Some (call (NetFinish sid) HandleStop_apiFinish s)
    | None => Some (handleStop_finally (set_status Idle s))
    end
  else None.

Definition handleStop_apiFinish (o : Outcome) (s : State) : option State :=
  match o with
  | Fulfilled j =>
      let s := set_language (or_empty (json_language j)) s in
      let s := set_transcript (or_empty (json_text j)) s in
      Some (handleStop_finally (set_status Idle s))
  | Rejected err =>
      let s := set_errorMsg ("Finish failed: " ++ err) s in
      Some (handleStop_finally (set_status Error s))
  | _ => None
  end.

(** ** The event loop *)

Inductive Event :=
| ClickStart
| ClickStop
| AudioProcess (input : Float32Array.t)
| Settle (i : nat) (o : Outcome).

Definition resume (t : Task) (o : Outcome) (s : State) : option State :=
  match t with
  | HandleStart_apiStart => handleStart_apiStart o s
  | HandleStart_getUserMedia => handleStart_getUserMedia o s
  | HandleStart_stopAudioPipeline c => handleStart_stopAudioPipeline c o s
  | HandleStop_stopAudioPipeline c => handleStop_stopAudioPipeline c o s
  | HandleStop_apiFinish => handleStop_apiFinish o s
  | Pump_apiPushChunk => pump_resume o s
  end.

Definition remove_nth {A} (i : nat) (l : list A) : list A :=
  firstn i l ++ skipn (S i) l.

(** One event.  [Settle i o] settles the [i]-th suspended task; an event
    the environment cannot produce in [s] (no such task, an outcome of the
    wrong kind, an audio block without handler) leaves [s] as it is. *)
Definition step (s : State) (e : Event) : State :=
  match e with
  | ClickStart => handleStart s
  | ClickStop => handleStop s
  | AudioProcess input =>
      match onaudioprocess s with
      | Some sampleRate => audioprocess sampleRate input s
      | None => s
      end
  | Settle i o =>
      match nth_error (tasks s) i with
      | Some t =>
          match resume t o (set_tasks (remove_nth i (tasks s)) s) with
          | Some s' => s'
          | None => s
          end
      | None => s
      end
  end.

Definition run (s : State) (es : list Event) : State := fold_left step es s.

(** ** Observations *)

Definition is_push (t : Task) : bool :=
  match t with
  | Pump_apiPushChunk => true
  | _ => false
  end.

(** The [pushChunk] calls in flight: the pump instances suspended at
    line 95. *)
Definition in_flight (s : State) : nat := length (filter is_push (tasks s)).

Definition is_chunk (c : NetCall) : bool :=
  match c with
  | NetChunk _ _ => true
  | _ => false
  end.

Definition is_finish (c : NetCall) : bool :=
  match c with
  | NetFinish _ => true
  | _ => false
  end.

Definition pushChunk_calls (s : State) : nat := length (filter is_chunk (net s)).
Definition finishSession_calls (s : State) : nat :=
  length (filter is_finish (net s)).

(** The samples the transport received, in the order of its requests. *)
Fixpoint delivered (l : list NetCall) : list Q :=
  match l with
  | [] => []
  | NetChunk _ chunk :: l' => chunk ++ delivered l'
  | _ :: l' => delivered l'
  end.

(** ** Scenarios *)

Definition silence (n : nat) : Float32Array.t := repeat 0 n.

Definition ok_start (sid : string) : Outcome :=
  Fulfilled (mkJson (Some sid) None None).
Definition ok_text (text : string) : Outcome :=
  Fulfilled (mkJson None (Some "en"%string) (Some text)).

(** A session brought up at 16000 Hz (no resampling) and fed two capture
    blocks of 4096 samples: the second one completes a chunk, which is
    sent and still awaits its answer. *)
Definition first_chunk_in_flight : list Event :=
  [ ClickStart; Settle 0 (ok_start "s1"); Settle 0 (Stream 16000);
    AudioProcess (silence 4096); AudioProcess (silence 4096) ].

(** The answer to that chunk is a failure. *)
Definition push_fails : list Event :=
  first_chunk_in_flight ++ [ Settle 0 (Rejected "Error: boom") ].

(** Two more blocks arrive while the first chunk is in flight: the buffer
    holds a full chunk again. *)
Definition full_chunk_waiting : list Event :=
  first_chunk_in_flight
    ++ [ AudioProcess (silence 4096); AudioProcess (silence 4096) ].


(** stop() and a new start() while the first chunk stays unanswered: the
    session is finished, a second one is brought up and fed two blocks. *)
Definition restart_during_flight : list Event :=
  first_chunk_in_flight
    ++ [ ClickStop; Settle 1 Settled; Settle 1 (ok_text "bye");
         ClickStart; Settle 1 (ok_start "s2"); Settle 1 (Stream 16000);
         AudioProcess (silence 4096); AudioProcess (silence 4096) ].

(** Two more blocks, then the answer to the first chunk arrives. *)
Definition old_pump_resumes : list Event :=
  restart_during_flight
    ++ [ AudioProcess (silence 4096); AudioProcess (silence 4096);
         Settle 0 (ok_text "late") ].

(** ** SegmentBuffer histories *)

Inductive BufOp :=
| Append (samples : Float32Array.t)
| PopChunk.

(** A buffer together with the chunks extracted from it so far, oldest
    first. *)
Record History := mkHistory {
  buffer : Float32Array.t;
  extracted : list Float32Array.t
}.

Definition buf_step (C : nat) (h : History) (op : BufOp) : History :=
  match op with
  | Append samples =>
      match concatFloat32 (buffer h) samples with
      | Some b => mkHistory b (extracted h)
      | None => h
      end
  | PopChunk =>
      match popChunk C (buffer h) with
      | Some (chunk, rest) => mkHistory rest (extracted h ++ [chunk])
      | None => h
      end
  end.

Definition buf_run (C : nat) (ops : list BufOp) : History :=
  fold_left (buf_step C) ops (mkHistory [] []).

(** All samples the [Append]s of a history carry, in order. *)
Fixpoint appended (ops : list BufOp) : list Q :=
  match ops with
  | [] => []
  | Append samples :: ops' => samples ++ appended ops'
  | PopChunk :: ops' => appended ops'
  end.

(** ** A recording session between its clicks *)

(** The state of a session that is up: recording, a session id, the
    handler installed, and only pump instances suspended. *)
Record session_up (sampleRate : Q) (s : State) : Prop := {
  up_recording : recordingRef s = true;
  up_id : exists sid, truthy (sessionIdRef s) = Some sid;
  up_handler : onaudioprocess s = Some sampleRate;
  up_tasks : forallb is_push (tasks s) = true
}.

(** The flag discipline: at most one pump is suspended, and then the
    flag is set. *)
Definition single_flight (s : State) : Prop :=
  (in_flight s <= 1)%nat /\ (in_flight s = 1%nat -> pushingRef s = true).


(** stop() before /api/start has answered. *)
Definition early_stop : list Event :=
  [ ClickStart; ClickStop; Settle 1 Settled; Settle 0 (ok_start "s1");
    Settle 0 (Stream 16000) ].

Definition is_click (e : Event) : bool :=
  match e with
  | ClickStart | ClickStop => true
  | _ => false
  end.

(** The samples the capture callback resamples out of the blocks of a
    trace. *)
Fixpoint captured (sampleRate : Q) (es : list Event) : list Q :=
  match es with
  | [] => []
  | AudioProcess input :: es' =>
      match resampleLinear input sampleRate TARGET_SR with
      | Some resampled => resampled ++ captured sampleRate es'
      | None => captured sampleRate es'
      end
  | _ :: es' => captured sampleRate es'
  end.

(** ** Further observations *)

Definition is_start (c : NetCall) : bool :=
  match c with
  | NetStart => true
  | _ => false
  end.

Definition startSession_calls (s : State) : nat :=
  length (filter is_start (net s)).

(** A request as the component means to send it: a session id that is
    not empty, and for a chunk exactly [chunkSamples] samples. *)
Definition well_formed (c : NetCall) : Prop :=
  match c with
  | NetStart => True
  | NetChunk sid chunk => sid <> ""%string /\ length chunk = chunkSamples
  | NetFinish sid => sid <> ""%string
  end.

(** The calls of [handleStop] suspended in [stopAudioPipeline]. *)
Definition is_stopping (t : Task) : bool :=
  match t with
  | HandleStop_stopAudioPipeline _ => true
  | _ => false
  end.

Definition stopping (s : State) : nat := length (filter is_stopping (tasks s)).

(** An awaited call that threw. *)
Definition is_rejection (e : Event) : bool :=
  match e with
  | Settle _ (Rejected _) => true
  | _ => false
  end.

(** The outcomes a fetch can have. *)
Definition is_answer (o : Outcome) : bool :=
  match o with
  | Fulfilled _ | Rejected _ => true
  | _ => false
  end.

(** What one event does to the recording flags, to the calls of
    [handleStop] waiting for the teardown, and to the transport log. *)
Inductive Effect (s s' : State) : Prop :=
| Eff_none :
    recordingRef s' = recordingRef s -> isRecording s' = isRecording s ->
    stopping s' = stopping s -> net s' = net s -> Effect s s'
| Eff_chunk : forall sid chunk,
    recordingRef s' = recordingRef s -> isRecording s' = isRecording s ->
    stopping s' = stopping s ->
    well_formed (NetChunk sid chunk) ->
    net s' = net s ++ [NetChunk sid chunk] -> Effect s s'
| Eff_start :
    isRecording s = false -> isRecording s' = true -> recordingRef s' = true ->
    stopping s' = stopping s -> net s' = net s ++ [NetStart] -> Effect s s'
| Eff_stop :
    isRecording s = true -> isRecording s' = false -> recordingRef s' = false ->
    stopping s' = S (stopping s) -> net s' = net s -> Effect s s'
| Eff_finish : forall sid,
    recordingRef s' = recordingRef s -> isRecording s' = isRecording s ->
    stopping s = S (stopping s') ->
    well_formed (NetFinish sid) ->
    net s' = net s ++ [NetFinish sid] -> Effect s s'
| Eff_stopped :
    recordingRef s' = recordingRef s -> isRecording s' = isRecording s ->
    stopping s = S (stopping s') -> net s' = net s -> Effect s s'
| Eff_failed :
    isRecording s' = false -> recordingRef s' = false ->
    stopping s' = stopping s -> net s' = net s -> Effect s s'.

(** * Typed arrays and the SegmentBuffer *)

Lemma make_length : forall n, length (Float32Array.make n) = n.
Proof. intros n. apply repeat_length. Qed.

Lemma concatFloat32_spec : forall a b, concatFloat32 a b = Some (a ++ b).
Proof.
  intros a b. unfold concatFloat32, Float32Array.set.
  rewrite make_length.
  replace (0 + length a <=? length a + length b)%nat with true
    by (symmetry; apply Nat.leb_le; lia).
  cbn [firstn Nat.add app].
  assert (Hlen : length (a ++ skipn (length a)
                          (Float32Array.make (length a + length b)))
                 = (length a + length b)%nat).
  { rewrite length_app, length_skipn, make_length. lia. }
  rewrite Hlen, Nat.leb_refl.
  rewrite firstn_app, firstn_all, Nat.sub_diag. cbn [firstn].
  rewrite skipn_all2 by lia.
  now rewrite !app_nil_r.
Qed.

Lemma popChunk_some : forall C buf,
  (C <= length buf)%nat -> popChunk C buf = Some (firstn C buf, skipn C buf).
Proof.
  intros C buf H. unfold popChunk, Float32Array.slice, Float32Array.slice_from.
  apply Nat.leb_le in H. rewrite H. cbn [skipn]. now rewrite Nat.sub_0_r.
Qed.

Lemma popChunk_none : forall C buf,
  popChunk C buf = None <-> (length buf < C)%nat.
Proof.
  intros C buf. unfold popChunk.
  destruct (C <=? length buf)%nat eqn:E.
  - apply Nat.leb_le in E. split; [discriminate | lia].
  - apply Nat.leb_gt in E. split; auto.
Qed.

Lemma popChunk_inv : forall C buf chunk rest,
  popChunk C buf = Some (chunk, rest) ->
  (C <= length buf)%nat /\ chunk = firstn C buf /\ rest = skipn C buf
  /\ buf = chunk ++ rest /\ length chunk = C
  /\ length rest = (length buf - C)%nat.
Proof.
  intros C buf chunk rest H.
  destruct (le_lt_dec C (length buf)) as [Hle | Hlt].
  - rewrite popChunk_some in H by assumption. inversion H; subst.
    repeat split; auto.
    + symmetry. apply firstn_skipn.
    + apply firstn_length_le. assumption.
    + apply length_skipn.
  - apply popChunk_none in Hlt. congruence.
Qed.

Lemma buf_run_snoc : forall C ops op,
  buf_run C (ops ++ [op]) = buf_step C (buf_run C ops) op.
Proof. intros. unfold buf_run. now rewrite fold_left_app. Qed.

Lemma appended_snoc : forall ops op,
  appended (ops ++ [op])
  = appended ops ++ match op with Append b => b | PopChunk => [] end.
Proof.
  induction ops as [| o ops IH]; intros op; cbn.
  - destruct op; now rewrite ?app_nil_r.
  - destruct o; rewrite IH; now rewrite ?app_assoc.
Qed.

(** The heart of the conservation law: the extracted chunks followed by
    the buffer are the appended samples, and every chunk has length [C]. *)
Lemma buf_run_fifo : forall C ops,
  concat (extracted (buf_run C ops)) ++ buffer (buf_run C ops) = appended ops
  /\ Forall (fun chunk => length chunk = C) (extracted (buf_run C ops)).
Proof.
  intros C ops. induction ops as [| op ops IH] using rev_ind.
  - cbn. auto.
  - destruct IH as [IHc IHf].
    rewrite buf_run_snoc, appended_snoc.
    destruct op as [samples |]; cbn [buf_step].
    + rewrite concatFloat32_spec. cbn [buffer extracted].
      rewrite app_assoc, IHc. auto.
    + destruct (popChunk C (buffer (buf_run C ops))) as [[chunk rest] |] eqn:E.
      * apply popChunk_inv in E.
        destruct E as (_ & _ & _ & Hbuf & Hlen & _).
        cbn [buffer extracted]. split.
        -- rewrite concat_app. cbn [concat].
           rewrite !app_nil_r, <- app_assoc, <- Hbuf. assumption.
        -- apply Forall_app. auto.
      * rewrite app_nil_r. auto.
Qed.

Lemma concat_length_const : forall (C : nat) (l : list Float32Array.t),
  Forall (fun chunk => length chunk = C) l ->
  length (concat l) = (length l * C)%nat.
Proof.
  intros C l H. induction H as [| c l Hc _ IH]; cbn.
  - reflexivity.
  - rewrite length_app, IH, Hc. reflexivity.
Qed.

(** C4. Buffer conservation: after any sequence of appends (T samples in
    total) interleaved with popChunk(C) calls, M of them successful, the
    buffer holds T - M*C samples and M*C <= T; the extracted chunks
    followed by the buffer are the appended samples in order (each
    extraction takes exactly C samples from the front); an extraction
    happens only when the buffer holds at least C samples, and a failed
    one leaves the buffer as it was. *)
Theorem buffer_conservation : forall (C : nat) (ops : list BufOp),
  let h := buf_run C ops in
  let T := length (appended ops) in
  let M := length (extracted h) in
  length (buffer h) = (T - M * C)%nat
  /\ (M * C <= T)%nat
  /\ concat (extracted h) ++ buffer h = appended ops
  /\ Forall (fun chunk => length chunk = C) (extracted h)
  /\ (forall buf chunk rest,
        popChunk C buf = Some (chunk, rest) ->
        (C <= length buf)%nat /\ buf = chunk ++ rest /\ length chunk = C
        /\ length rest = (length buf - C)%nat)
  /\ (forall buf, (length buf < C)%nat -> popChunk C buf = None)
  /\ (forall h0, popChunk C (buffer h0) = None -> buf_step C h0 PopChunk = h0).
Proof.
  intros C ops h T M.
  destruct (buf_run_fifo C ops) as [Hfifo Hall]. fold h in Hfifo, Hall.
  assert (HT : T = (M * C + length (buffer h))%nat).
  { unfold T, M. rewrite <- Hfifo, length_app.
    now rewrite (concat_length_const C). }
  repeat split.
  - lia.
  - lia.
  - assumption.
  - assumption.
  - now apply popChunk_inv in H.
  - now apply popChunk_inv in H.
  - now apply popChunk_inv in H.
  - now apply popChunk_inv in H.
  - intros buf Hlt. now apply popChunk_none.
  - intros h0 E. cbn [buf_step]. now rewrite E.
Qed.

Lemma buffer_conservation_witness :
  popChunk 2 [1; 2; 3] = Some ([1; 2], [3])
  /\ popChunk 2 [3] = None.
Proof.
  destruct (buffer_conservation 2 [Append [1; 2; 3]; PopChunk; PopChunk])
    as (_ & _ & _ & _ & _ & Hnone & _).
  split; [reflexivity |]. apply (Hnone [3]). cbn. lia.
Defined.

(** * The resampler *)


(** [Math.round] gives the integer [k] with [k - 1/2 <= x < k + 1/2]. *)
Lemma Math_round_nearest : forall x : Q,
  inject_Z (Math_round x) - (1 # 2) <= x
  /\ x < inject_Z (Math_round x) + (1 # 2).
Proof.
  intros x. unfold Math_round.
  pose proof (Qfloor_le (x + (1 # 2))) as H1.
  pose proof (Qlt_floor (x + (1 # 2))) as H2.
  rewrite inject_Z_plus in H2. change (inject_Z 1) with 1 in H2.
  split; lra.
Qed.




Lemma Qeq_bool_false : forall x y : Q, ~ x == y -> Qeq_bool x y = false.
Proof.
  intros x y H. destruct (Qeq_bool x y) eqn:E; auto.
  apply Qeq_bool_iff in E. contradiction.
Qed.


(** The output of the resampling branch has [outLen] elements. *)
Lemma resampleLinear_length : forall input srcSr dstSr out,
  ~ srcSr == dstSr -> ~ srcSr == 0 ->
  resampleLinear input srcSr dstSr = Some out ->
  length out = resample_outLen (length input) (dstSr / srcSr).
Proof.
  intros input srcSr dstSr out Hne Hnz H. unfold resampleLinear in H.
  rewrite (Qeq_bool_false _ _ Hne), (Qeq_bool_false _ _ Hnz) in H.
  inversion H. now rewrite length_map, length_seq.
Qed.

(** X2. Every read of the interpolation loop is inside the input: the model
    of an out-of-range read in [Float32Array.get] is never used. *)
Lemma resample_reads_in_range : forall (n : nat) (ratio : Q) (i : nat),
  (i < resample_outLen n ratio)%nat ->
  let x0 := Math_floor (inject_Z (Z.of_nat i) / ratio) in
  let x1 := Z.min (x0 + 1) (Z.of_nat n - 1) in
  (0 <= x0 < Z.of_nat n)%Z /\ (0 <= x1 < Z.of_nat n)%Z.
Proof.
  intros n ratio i Hi x0 x1. unfold resample_outLen in Hi.
  set (N := inject_Z (Z.of_nat n)) in *.
  set (I := inject_Z (Z.of_nat i)) in *.
  assert (HI : 0 <= I).
  { unfold I. change 0 with (inject_Z 0). rewrite <- Zle_Qle. lia. }
  assert (HN : 0 <= N).
  { unfold N. change 0 with (inject_Z 0). rewrite <- Zle_Qle. lia. }
  assert (Hk : (Z.of_nat i + 1 <= Math_round (N * ratio))%Z) by lia.
  rewrite Zle_Qle, inject_Z_plus in Hk. fold I in Hk.
  change (inject_Z 1) with 1 in Hk.
  destruct (Math_round_nearest (N * ratio)) as [Hlo _].
  assert (Hprod : I + (1 # 2) <= N * ratio) by lra.
  assert (Hratio : 0 < ratio).
  { destruct (Qlt_le_dec 0 ratio) as [Hp | Hn]; [assumption |].
    assert (N * ratio <= 0).
    { setoid_replace (N * ratio) with (- (N * - ratio)) by ring.
      assert (0 <= N * - ratio) by (apply Qmult_le_0_compat; lra). lra. }
    lra. }
  assert (Hx_lo : 0 <= I / ratio).
  { apply Qle_shift_div_l; [assumption | lra]. }
  assert (Hx_hi : I / ratio < N).
  { apply Qlt_shift_div_r; [assumption | lra]. }
  assert (H0 : (0 <= x0)%Z).
  { unfold x0, Math_floor. change 0%Z with (Qfloor 0).
    now apply Qfloor_resp_le. }
  assert (H1 : (x0 < Z.of_nat n)%Z).
  { rewrite Zlt_Qlt. eapply Qle_lt_trans; [apply Qfloor_le | exact Hx_hi]. }
  unfold x1. lia.
Qed.

(** C6. Resampler identity: when the source rate equals the target rate,
    the input is returned unchanged. *)
Theorem resample_identity : forall (input : Float32Array.t) (srcSr dstSr : Q),
  srcSr == dstSr -> resampleLinear input srcSr dstSr = Some input.
Proof.
  intros input srcSr dstSr H. unfold resampleLinear.
  apply Qeq_bool_iff in H. now rewrite H.
Qed.

Lemma resample_identity_witness :
  resampleLinear [1; 2; 3] 16000 TARGET_SR = Some [1; 2; 3].
Proof. apply (resample_identity [1; 2; 3] 16000 TARGET_SR). reflexivity. Defined.



(** X7. The length the source computes in doubles is the exact one, for the
    blocks of every size a script processor delivers, at each of the
    usual hardware rates. *)
Lemma outLen_binary64_exact :
  forallb (fun r => forallb (Binary64.agrees r) Binary64.bufferSizes)
    Binary64.rates = true.
Proof. vm_compute. reflexivity. Qed.

(** * The pump *)

Lemma chunkSamples_eq : chunkSamples = Z.to_nat 8000.
Proof. vm_compute. reflexivity. Qed.

Lemma chunkSamples_pos : (0 < chunkSamples)%nat.
Proof. rewrite chunkSamples_eq. lia. Qed.

Opaque chunkSamples.

Lemma slice_0 : forall (a : Float32Array.t) (e : nat),
  Float32Array.slice a 0 e = firstn e a.
Proof. intros. unfold Float32Array.slice. cbn. now rewrite Nat.sub_0_r. Qed.

Lemma set_bufferRef_same : forall s, set_bufferRef (bufferRef s) s = s.
Proof. now destruct s. Qed.

Lemma bufferRef_set : forall b s, bufferRef (set_bufferRef b s) = b.
Proof. now destruct s. Qed.

Lemma set_bufferRef_twice : forall a b s,
  set_bufferRef a (set_bufferRef b s) = set_bufferRef a s.
Proof. now destruct s. Qed.

Lemma pump_loop_unfold : forall fuel s,
  pump_loop fuel s =
  if recordingRef s && (chunkSamples <=? length (bufferRef s))%nat then
    match fuel with
    | O => None
    | S fuel' =>
        let s1 := set_bufferRef (skipn chunkSamples (bufferRef s)) s in
        match truthy (sessionIdRef s) with
        | Some sid =>
            Some (call (NetChunk sid (firstn chunkSamples (bufferRef s)))
                    Pump_apiPushChunk s1)
        | None => pump_loop fuel' s1
        end
    end
  else Some (pump_finally s).
Proof.
  intros fuel s. destruct fuel; cbn [pump_loop]; [reflexivity |].
  rewrite slice_0. unfold Float32Array.slice_from. now destruct s.
Qed.

(** The loop in terms of [popChunk]: an iteration is one extraction, and
    the loop ends when the flag is cleared or the extraction fails. *)
Lemma pump_loop_popChunk : forall fuel s,
  pump_loop (S fuel) s =
  if recordingRef s then
    match popChunk chunkSamples (bufferRef s) with
    | Some (chunk, rest) =>
        match truthy (sessionIdRef s) with
        | Some sid =>
            Some (call (NetChunk sid chunk) Pump_apiPushChunk
                    (set_bufferRef rest s))
        | None => pump_loop fuel (set_bufferRef rest s)
        end
    | None => Some (pump_finally s)
    end
  else Some (pump_finally s).
Proof.
  intros fuel s. rewrite pump_loop_unfold. unfold popChunk.
  rewrite slice_0. unfold Float32Array.slice_from.
  destruct (recordingRef s); [| reflexivity]. cbn [andb].
  now destruct (chunkSamples <=? length (bufferRef s))%nat.
Qed.

(** The loop test fails: lines 104-106 only. *)
Lemma pump_loop_exit : forall fuel s,
  recordingRef s = false \/ (length (bufferRef s) < chunkSamples)%nat ->
  pump_loop fuel s = Some (pump_finally s).
Proof.
  intros fuel s H. rewrite pump_loop_unfold.
  destruct H as [H | H].
  - now rewrite H.
  - apply Nat.leb_gt in H. now rewrite H, andb_false_r.
Qed.

(** With a session id the first iteration suspends in [apiPushChunk]. *)
Lemma pump_loop_send : forall fuel s sid,
  recordingRef s = true -> (chunkSamples <= length (bufferRef s))%nat ->
  truthy (sessionIdRef s) = Some sid ->
  pump_loop (S fuel) s =
  Some (call (NetChunk sid (firstn chunkSamples (bufferRef s)))
          Pump_apiPushChunk
          (set_bufferRef (skipn chunkSamples (bufferRef s)) s)).
Proof.
  intros fuel s sid Hr Hl Hs. rewrite pump_loop_unfold.
  apply Nat.leb_le in Hl. now rewrite Hr, Hl, Hs.
Qed.

(** Without one the loop runs through: every full chunk is taken off the
    buffer and none is sent. *)
Lemma pump_loop_discard : forall fuel s,
  recordingRef s = true -> truthy (sessionIdRef s) = None ->
  (length (bufferRef s) <= fuel)%nat ->
  pump_loop fuel s =
  Some (pump_finally
          (set_bufferRef
             (skipn (chunkSamples * (length (bufferRef s) / chunkSamples))
                (bufferRef s)) s)).
Proof.
  pose proof chunkSamples_pos as HC.
  induction fuel as [| fuel IH]; intros s Hr Hs Hf.
  - rewrite pump_loop_exit by lia.
    rewrite Nat.div_small, Nat.mul_0_r by lia. cbn [skipn].
    now rewrite set_bufferRef_same.
  - destruct (le_lt_dec chunkSamples (length (bufferRef s))) as [Hle | Hlt].
    + rewrite pump_loop_unfold. rewrite Hr, Hs.
      replace (chunkSamples <=? length (bufferRef s))%nat with true
        by (symmetry; now apply Nat.leb_le).
      cbn [andb]. cbv zeta. rewrite IH.
      * rewrite bufferRef_set, set_bufferRef_twice.
        rewrite length_skipn, skipn_skipn.
        replace (length (bufferRef s))
          with (length (bufferRef s) - chunkSamples + 1 * chunkSamples)%nat
          at 2 by lia.
        rewrite Nat.div_add by lia.
        now rewrite Nat.mul_add_distr_l, Nat.mul_1_r.
      * now destruct s.
      * now destruct s.
      * rewrite bufferRef_set, length_skipn. lia.
    + rewrite pump_loop_exit by lia.
      rewrite Nat.div_small, Nat.mul_0_r by lia. cbn [skipn].
      now rewrite set_bufferRef_same.
Qed.

(** X8. The fuel [drain] gives is enough: the loop always comes to its
    suspension or to its end. *)
Lemma pump_loop_total : forall fuel s,
  (length (bufferRef s) <= fuel)%nat -> exists s', pump_loop fuel s = Some s'.
Proof.
  pose proof chunkSamples_pos as HC.
  intros fuel s Hf.
  destruct (recordingRef s) eqn:Hr;
    [| rewrite pump_loop_exit by auto; eauto].
  destruct (le_lt_dec chunkSamples (length (bufferRef s))) as [Hle | Hlt];
    [| rewrite pump_loop_exit by auto; eauto].
  destruct (truthy (sessionIdRef s)) as [sid |] eqn:Hs.
  - destruct fuel as [| fuel]; [lia |].
    erewrite pump_loop_send by eassumption. eauto.
  - rewrite pump_loop_discard by assumption. eauto.
Qed.

Lemma drain_not_recording : forall s,
  recordingRef s = false -> drain s = pump_finally s.
Proof. intros s H. unfold drain. now rewrite pump_loop_exit by auto. Qed.

Lemma drain_short : forall s,
  (length (bufferRef s) < chunkSamples)%nat -> drain s = pump_finally s.
Proof. intros s H. unfold drain. now rewrite pump_loop_exit by auto. Qed.

Lemma drain_send : forall s sid,
  recordingRef s = true -> (chunkSamples <= length (bufferRef s))%nat ->
  truthy (sessionIdRef s) = Some sid ->
  drain s =
  call (NetChunk sid (firstn chunkSamples (bufferRef s))) Pump_apiPushChunk
    (set_bufferRef (skipn chunkSamples (bufferRef s)) s).
Proof.
  intros s sid Hr Hl Hs. unfold drain.
  pose proof chunkSamples_pos.
  destruct (length (bufferRef s)) as [| fuel] eqn:E; [lia |].
  rewrite <- E in Hl. now erewrite pump_loop_send by eassumption.
Qed.

Lemma drain_discard : forall s,
  recordingRef s = true -> truthy (sessionIdRef s) = None ->
  drain s =
  pump_finally
    (set_bufferRef
       (skipn (chunkSamples * (length (bufferRef s) / chunkSamples))
          (bufferRef s)) s).
Proof.
  intros s Hr Hs. unfold drain. now rewrite pump_loop_discard by auto.
Qed.

(** The two ways a run of the loop ends: suspended in [apiPushChunk] with
    one more task and one more request, or past [finally] with the flag
    cleared.  Only the buffer changes besides. *)
Lemma drain_cases : forall s,
  (exists sid chunk b,
      drain s = call (NetChunk sid chunk) Pump_apiPushChunk (set_bufferRef b s))
  \/ (exists b, drain s = pump_finally (set_bufferRef b s)).
Proof.
  intros s.
  destruct (recordingRef s) eqn:Hr.
  2:{ right. exists (bufferRef s).
      now rewrite set_bufferRef_same, drain_not_recording. }
  destruct (le_lt_dec chunkSamples (length (bufferRef s))) as [Hle | Hlt].
  2:{ right. exists (bufferRef s).
      now rewrite set_bufferRef_same, drain_short. }
  destruct (truthy (sessionIdRef s)) as [sid |] eqn:Hs.
  - left. exists sid. do 2 eexists. apply drain_send; assumption.
  - right. eexists. apply drain_discard; assumption.
Qed.

(** C9. The session-id gate of the pump: with the recording flag set and
    at least one full chunk in the buffer, the loop takes the chunk off
    the buffer whether or not there is a session id; with an id the chunk
    is sent by pushChunk and the pump suspends; without one every full
    chunk is dropped without a request, without a suspended task and
    without a trace in status or error message, and nothing of it stays
    in the buffer. *)
Theorem pump_session_id_gate : forall s : State,
  recordingRef s = true ->
  (chunkSamples <= length (bufferRef s))%nat ->
  (pushingRef s = false -> pump s = drain (set_pushingRef true s))
  /\ (forall sid,
        truthy (sessionIdRef s) = Some sid ->
        drain s =
        call (NetChunk sid (firstn chunkSamples (bufferRef s)))
          Pump_apiPushChunk
          (set_bufferRef (skipn chunkSamples (bufferRef s)) s))
  /\ (truthy (sessionIdRef s) = None ->
      let k := (length (bufferRef s) / chunkSamples)%nat in
      drain s =
      pump_finally (set_bufferRef (skipn (chunkSamples * k) (bufferRef s)) s)
      /\ (1 <= k)%nat
      /\ (length (bufferRef (drain s)) < chunkSamples)%nat
      /\ net (drain s) = net s
      /\ tasks (drain s) = tasks s
      /\ status (drain s) = status s
      /\ errorMsg (drain s) = errorMsg s).
Proof.
  intros s Hr Hl. pose proof chunkSamples_pos as HC. split; [| split].
  - intros Hp. unfold pump. now rewrite Hp.
  - intros sid Hs. now apply drain_send.
  - intros Hs k. rewrite drain_discard by assumption. fold k.
    assert (Hk : (1 <= k)%nat).
    { unfold k. apply Nat.div_le_lower_bound; lia. }
    assert (Hm : (length (bufferRef s) - chunkSamples * k < chunkSamples)%nat).
    { unfold k.
      pose proof (Nat.div_mod_eq (length (bufferRef s)) chunkSamples).
      pose proof (Nat.mod_upper_bound (length (bufferRef s)) chunkSamples).
      lia. }
    destruct s; cbn in *. rewrite length_skipn. auto 10.
Qed.

Lemma pump_session_id_gate_witness :
  let s := run initial full_chunk_waiting in
  drain s =
  call (NetChunk "s1" (firstn chunkSamples (bufferRef s))) Pump_apiPushChunk
    (set_bufferRef (skipn chunkSamples (bufferRef s)) s).
Proof.
  intros s.
  apply (proj1 (proj2 (pump_session_id_gate s
                         ltac:(vm_compute; reflexivity)
                         ltac:(apply Nat.leb_le; vm_compute; reflexivity)))).
  vm_compute. reflexivity.
Defined.

Lemma pump_resume_rejected : forall err s,
  pump_resume (Rejected err) s =
  Some (pump_finally
          (set_status Error (set_errorMsg ("Backend error: " ++ err) s))).
Proof. reflexivity. Qed.

Lemma in_flight_call : forall c t s,
  in_flight (call c t s) = (in_flight s + if is_push t then 1 else 0)%nat.
Proof.
  intros c t s. unfold in_flight. destruct s; cbn.
  rewrite filter_app, length_app. cbn. now destruct (is_push t).
Qed.

Lemma filter_remove_nth : forall (l : list Task) (i : nat) (t : Task),
  nth_error l i = Some t ->
  length (filter is_push l)
  = (length (filter is_push (remove_nth i l))
     + if is_push t then 1 else 0)%nat.
Proof.
  unfold remove_nth.
  induction l as [| a l IH]; intros i t H.
  - destruct i; discriminate.
  - destruct i as [| i]; cbn in H.
    + inversion H; subst. cbn. destruct (is_push t); cbn; lia.
    + specialize (IH i t H). cbn [firstn skipn app filter] in *.
      destruct (is_push a); cbn [length]; lia.
Qed.

(** A run of the loop ends with the flag cleared or a pump suspended. *)
Lemma drain_flag : forall s,
  pushingRef (drain s) = false \/ (1 <= in_flight (drain s))%nat.
Proof.
  intros s.
  destruct (drain_cases s) as [(sid & chunk & b & E) | (b & E)]; rewrite E.
  - right. rewrite in_flight_call. cbn. lia.
  - left. now destruct s.
Qed.

Lemma pump_flag : forall s,
  pushingRef s = false ->
  pushingRef (pump s) = false \/ (1 <= in_flight (pump s))%nat.
Proof. intros s H. unfold pump. rewrite H. apply drain_flag. Qed.

(** How one event moves the flag and the suspended pumps: it clears the
    flag, or leaves a pump suspended, or changes neither. *)
Lemma step_flag : forall s e,
  pushingRef (step s e) = false \/ (1 <= in_flight (step s e))%nat
  \/ (pushingRef (step s e) = pushingRef s
      /\ in_flight (step s e) = in_flight s).
Proof.
  intros s e.
  assert (Hsame : forall s', s' = s ->
            pushingRef s' = false \/ (1 <= in_flight s')%nat
            \/ (pushingRef s' = pushingRef s /\ in_flight s' = in_flight s)).
  { intros s' ->. auto. }
  destruct e as [| | input | i o]; cbn [step].
  - unfold handleStart. destruct (isRecording s); [now apply Hsame |].
    right; right. rewrite in_flight_call. now destruct s; cbn; auto.
  - unfold handleStop. destruct (isRecording s); cbn [negb]; [| now apply Hsame].
    right; right. unfold stopAudioPipeline_begin.
    destruct s as [? ? ? ? ? ? [a|] [|] ? ? ? ? ? ?]; cbn; unfold in_flight; cbn;
      rewrite filter_app, length_app; cbn; split; auto; lia.
  - destruct (onaudioprocess s) as [sr |]; [| now apply Hsame].
    unfold audioprocess.
    destruct (recordingRef s); cbn [negb]; [| now apply Hsame].
    destruct (resampleLinear input sr TARGET_SR) as [resampled |];
      [| now apply Hsame].
    rewrite concatFloat32_spec. cbv zeta.
    destruct (pushingRef (set_bufferRef (bufferRef s ++ resampled) s)) eqn:Hp;
      cbn [negb].
    + right; right. now destruct s.
    + destruct (pump_flag _ Hp); auto.
  - destruct (nth_error (tasks s) i) as [t |] eqn:Ht; [| now apply Hsame].
    pose proof (filter_remove_nth _ _ _ Ht) as Hcount.
    destruct t; cbn [resume is_push] in *.
    + destruct o; cbn; try now apply Hsame.
      * right; right. destruct s; cbn in *; unfold in_flight; cbn.
        rewrite filter_app, length_app. cbn. split; auto; lia.
      * right; right. unfold handleStart_catch, stopAudioPipeline_begin.
        destruct s as [? ? ? ? ? ? [a|] [|] ? ? ? ? ? ?]; cbn in *;
          unfold in_flight; cbn;
          rewrite filter_app, length_app; cbn; split; auto; lia.
    + destruct o; cbn; try now apply Hsame.
      * right; right. destruct s; cbn in *; unfold in_flight; cbn.
        split; auto; lia.
      * right; right. unfold handleStart_catch, stopAudioPipeline_begin.
        destruct s as [? ? ? ? ? ? [a|] [|] ? ? ? ? ? ?]; cbn in *;
          unfold in_flight; cbn;
          rewrite filter_app, length_app; cbn; split; auto; lia.
    + unfold handleStart_stopAudioPipeline.
      destruct (teardown_outcome o); [| now apply Hsame].
      right; right. destruct closing, s; cbn in *; unfold in_flight; cbn;
        split; auto; lia.
    + unfold handleStop_stopAudioPipeline.
      destruct (teardown_outcome o); [| now apply Hsame].
      match goal with
      | |- context [truthy ?x] => destruct (truthy x) as [sid |] eqn:Hs
      end.
      * right; right. rewrite in_flight_call.
        destruct closing, s; cbn in *; unfold in_flight; cbn; split; auto; lia.
      * left. now destruct closing, s.
    + destruct o; cbn; try now apply Hsame.
      * left. now destruct s.
      * left. now destruct s.
    + destruct o; cbn [pump_resume]; try now apply Hsame.
      * destruct (drain_flag
                    (set_transcript (or_empty (json_text j))
                       (set_language (or_empty (json_language j))
                          (set_tasks (remove_nth i (tasks s)) s)))); auto.
      * left. now destruct s.
Qed.

Lemma run_snoc : forall s es e, run s (es ++ [e]) = step (run s es) e.
Proof. intros. unfold run. now rewrite fold_left_app. Qed.


(** Whenever the flag is set, a pump is suspended in [apiPushChunk]. *)
Lemma flag_has_pump : forall es,
  pushingRef (run initial es) = true -> (1 <= in_flight (run initial es))%nat.
Proof.
  induction es as [| e es IH] using rev_ind.
  - cbn. discriminate.
  - rewrite run_snoc. intros H.
    destruct (step_flag (run initial es) e) as [Hf | [Hp | [Hp Hi]]].
    + congruence.
    + assumption.
    + rewrite Hi. apply IH. congruence.
Qed.

Lemma drain_flag_exact : forall s,
  (pushingRef (drain s) = pushingRef s
   /\ in_flight (drain s) = S (in_flight s))
  \/ (pushingRef (drain s) = false /\ in_flight (drain s) = in_flight s).
Proof.
  intros s.
  destruct (drain_cases s) as [(sid & chunk & b & E) | (b & E)]; rewrite E.
  - left. rewrite in_flight_call. cbn [is_push]. destruct s; cbn. split; auto.
    unfold in_flight; cbn. lia.
  - right. now destruct s.
Qed.

(** C8. Flag discipline of the pump: an invocation that finds the flag
    set returns at once; one that passes the guard sets the flag before
    its loop, so the flag is set whenever the loop
    is suspended in pushChunk; when the loop exits, by its test or by a
    failed pushChunk, the flag is cleared; after a failure the next
    trigger runs the loop again; and in every execution a set flag comes
    with a suspended pump that will clear it, so the pipeline is never
    stuck with the flag set and no pump to run. *)
Theorem pump_flag_discipline :
  (forall s, pushingRef s = true -> pump s = s)
  /\ (forall s, pushingRef s = false ->
        (pushingRef (pump s) = true /\ in_flight (pump s) = S (in_flight s))
        \/ (pushingRef (pump s) = false
            /\ in_flight (pump s) = in_flight s))
  /\ (forall j s, exists s',
        pump_resume (Fulfilled j) s = Some s'
        /\ ((pushingRef s' = pushingRef s /\ in_flight s' = S (in_flight s))
            \/ (pushingRef s' = false /\ in_flight s' = in_flight s)))
  /\ (forall err s, exists s',
        pump_resume (Rejected err) s = Some s'
        /\ pushingRef s' = false /\ in_flight s' = in_flight s
        /\ status s' = Error
        /\ pump s' = drain (set_pushingRef true s'))
  /\ (forall es,
        pushingRef (run initial es) = true ->
        (1 <= in_flight (run initial es))%nat).
Proof.
  split; [| split; [| split; [| split]]].
  - intros s Hp. unfold pump. now rewrite Hp.
  - intros s Hp. unfold pump. rewrite Hp.
    destruct (drain_flag_exact (set_pushingRef true s)) as [[H1 H2] | [H1 H2]].
    + left. rewrite H1, H2. now destruct s.
    + right. rewrite H1, H2. now destruct s.
  - intros j s. eexists. split; [reflexivity |].
    match goal with
    | |- context [drain ?x] =>
        destruct (drain_flag_exact x) as [[H1 H2] | [H1 H2]]
    end.
    + left. rewrite H1, H2. now destruct s.
    + right. rewrite H1, H2. now destruct s.
  - intros err s. eexists. split; [apply pump_resume_rejected |].
    destruct s; cbn. unfold in_flight, pump; cbn. auto.
  - apply flag_has_pump.
Qed.

Lemma pump_flag_discipline_witness :
  (1 <= in_flight (run initial first_chunk_in_flight))%nat
  /\ pushingRef (pump (run initial push_fails)) = false.
Proof.
  destruct pump_flag_discipline as (_ & Hentry & _ & _ & Hrun). split.
  - apply (Hrun first_chunk_in_flight). vm_compute. reflexivity.
  - destruct (Hentry (run initial push_fails)) as [[H _] | [H _]].
    + vm_compute. reflexivity.
    + vm_compute in H. discriminate H.
    + exact H.
Defined.

(** * One recording session *)

Lemma delivered_app : forall l1 l2,
  delivered (l1 ++ l2) = delivered l1 ++ delivered l2.
Proof.
  induction l1 as [| c l1 IH]; intros l2; cbn; [reflexivity |].
  destruct c; rewrite IH; now rewrite ?app_assoc.
Qed.

Lemma forallb_remove_nth : forall (l : list Task) (i : nat),
  forallb is_push l = true -> forallb is_push (remove_nth i l) = true.
Proof.
  unfold remove_nth. induction l as [| t l IH]; intros i H.
  - now destruct i.
  - cbn in H. apply andb_prop in H. destruct H as [Ht Hl].
    destruct i as [| i]; cbn [firstn skipn app forallb].
    + assumption.
    + rewrite Ht. cbn. now apply IH.
Qed.

Lemma forallb_nth_error : forall (l : list Task) (i : nat) (t : Task),
  forallb is_push l = true -> nth_error l i = Some t -> is_push t = true.
Proof.
  intros l i t H Ht. rewrite forallb_forall in H.
  apply H. eapply nth_error_In; eassumption.
Qed.

Lemma session_step : forall sr s e,
  session_up sr s -> single_flight s -> is_click e = false ->
  session_up sr (step s e) /\ single_flight (step s e)
  /\ delivered (net (step s e)) ++ bufferRef (step s e)
     = (delivered (net s) ++ bufferRef s) ++ captured sr [e].
Proof.
  intros sr s e [Hrec [sid Hsid] Hh Ht] [Hle Hflag] He.
  pose proof chunkSamples_pos as HC.
  assert (Hsame : session_up sr s /\ single_flight s
                  /\ delivered (net s) ++ bufferRef s
                     = (delivered (net s) ++ bufferRef s) ++ []).
  { repeat split; cbn; eauto. now rewrite app_nil_r. }
  destruct e as [| | input | i o]; try discriminate; cbn [step captured].
  - rewrite Hh. unfold audioprocess. rewrite Hrec. cbn [negb].
    destruct (resampleLinear input sr TARGET_SR) as [resampled |];
      [| exact Hsame].
    rewrite concatFloat32_spec. cbv zeta. rewrite app_nil_r.
    destruct (pushingRef (set_bufferRef (bufferRef s ++ resampled) s)) eqn:Hp;
      cbn [negb].
    + destruct s; cbn in *. repeat split; cbn; eauto. now rewrite app_assoc.
    + assert (H0 : in_flight s = 0%nat).
      { destruct (in_flight s) as [| [| n]] eqn:E; [reflexivity | | lia].
        specialize (Hflag eq_refl). destruct s; cbn in *; congruence. }
      unfold pump. rewrite Hp.
      set (s2 := set_pushingRef true
                   (set_bufferRef (bufferRef s ++ resampled) s)).
      assert (Hb2 : bufferRef s2 = bufferRef s ++ resampled) by now destruct s.
      destruct (le_lt_dec chunkSamples (length (bufferRef s2))) as [Hl | Hl].
      * rewrite (drain_send s2 sid); [| now destruct s | assumption
                                      | now destruct s].
        rewrite Hb2. unfold single_flight. rewrite in_flight_call.
        cbn [is_push]. subst s2.
        destruct s; cbn in *. unfold in_flight in *; cbn in *.
        repeat split; cbn; eauto.
        -- rewrite forallb_app, Ht. reflexivity.
        -- lia.
        -- rewrite delivered_app. cbn. rewrite app_nil_r.
           rewrite <- !app_assoc. now rewrite firstn_skipn.
      * rewrite drain_short by assumption. subst s2.
        destruct s; cbn in *. unfold single_flight, in_flight in *; cbn in *.
        repeat split; cbn; eauto; try lia. now rewrite app_assoc.
  - rewrite app_nil_r.
    destruct (nth_error (tasks s) i) as [t |] eqn:Hi;
      [| rewrite <- (app_nil_r (_ ++ _)) at 2; exact Hsame].
    pose proof (forallb_nth_error _ _ _ Ht Hi) as Hpush.
    destruct t; try discriminate. cbn [resume].
    pose proof (filter_remove_nth _ _ _ Hi) as Hcount. cbn [is_push] in Hcount.
    pose proof (forallb_remove_nth _ i Ht) as Hrest.
    unfold in_flight in Hle, Hflag.
    assert (H0 : length (filter is_push (remove_nth i (tasks s))) = 0%nat)
      by lia.
    assert (Hset : pushingRef s = true) by (apply Hflag; lia).
    destruct o as [j | sr' | | err]; cbn [pump_resume];
      try (rewrite <- (app_nil_r (_ ++ _)) at 2; exact Hsame).
    + set (s2 := set_transcript _ _).
      assert (Hb2 : bufferRef s2 = bufferRef s) by now destruct s.
      destruct (le_lt_dec chunkSamples (length (bufferRef s2))) as [Hl | Hl].
      * rewrite (drain_send s2 sid); [| now destruct s | assumption
                                      | now destruct s].
        rewrite Hb2. unfold single_flight. rewrite in_flight_call.
        cbn [is_push]. subst s2.
        destruct s; cbn in *. unfold in_flight in *; cbn in *.
        repeat split; cbn; eauto.
        -- rewrite forallb_app, Hrest. reflexivity.
        -- lia.
        -- rewrite delivered_app. cbn. rewrite app_nil_r.
           rewrite <- !app_assoc. now rewrite firstn_skipn.
      * rewrite drain_short by assumption. subst s2.
        destruct s; cbn in *. unfold single_flight, in_flight in *; cbn in *.
        repeat split; cbn; eauto; try lia.
    + destruct s; cbn in *. unfold single_flight, in_flight in *; cbn in *.
      repeat split; cbn; eauto; try lia.
Qed.

Lemma captured_cons : forall sr e es,
  captured sr (e :: es) = captured sr [e] ++ captured sr es.
Proof.
  intros sr e es. destruct e; cbn; try reflexivity.
  destruct (resampleLinear input sr TARGET_SR); cbn;
    now rewrite ?app_nil_r.
Qed.



(** * The session controller *)

(** C10. start() while already recording and stop() while not recording
    return at once: the whole state, with the transcript, the language,
    the buffer, the session id, the status, the suspended tasks and the
    transport log, stays as it was. *)
Theorem start_stop_guards : forall s : State,
  (isRecording s = true -> step s ClickStart = s)
  /\ (isRecording s = false -> step s ClickStop = s).
Proof.
  intros s. split; intros H; cbn [step]; unfold handleStart, handleStop;
    now rewrite H.
Qed.

Lemma start_stop_guards_witness :
  step (run initial first_chunk_in_flight) ClickStart
  = run initial first_chunk_in_flight
  /\ step initial ClickStop = initial.
Proof.
  split.
  - apply (proj1 (start_stop_guards (run initial first_chunk_in_flight))).
    vm_compute. reflexivity.
  - apply (proj2 (start_stop_guards initial)). reflexivity.
Defined.










(** A stop() issued before /api/start has answered finds no session id
    and calls no finishSession; the start then goes on, takes the session
    id and installs the capture handler with the recording flag cleared.
    [start_then_stop] is about a start() that has run to its end. *)
Lemma stop_before_session_id :
  let s := run initial early_stop in
  finishSession_calls s = 0%nat /\ pushChunk_calls s = 0%nat
  /\ status s = Idle /\ isRecording s = false /\ recordingRef s = false
  /\ sessionIdRef s = Some "s1"%string /\ onaudioprocess s = Some 16000.
Proof. cbv zeta. repeat apply conj; vm_compute; reflexivity. Qed.

(** C3 on the code.  After the failed pushChunk of [push_fails] the
    status is Error, but the session still records: the flags and the
    capture handler stay, the next two blocks make the pump send a second
    chunk, and start() returns at its guard, resetting nothing. *)
Lemma push_failure_keeps_draining :
  let s := run initial push_fails in
  let s' := run s [AudioProcess (silence 4096); AudioProcess (silence 4096)] in
  status s = Error /\ errorMsg s = "Backend error: Error: boom"%string
  /\ isRecording s = true /\ recordingRef s = true
  /\ sessionIdRef s = Some "s1"%string /\ onaudioprocess s = Some 16000
  /\ pushChunk_calls s = 1%nat
  /\ pushChunk_calls s' = 2%nat /\ in_flight s' = 1%nat
  /\ step s' ClickStart = s' /\ length (bufferRef s') = 384%nat
  /\ status s' = Error.
Proof. cbv zeta. repeat apply conj; vm_compute; reflexivity. Qed.

(** C1 on the code.  stop() clears the flag although a pushChunk is in
    flight (line 207); after a new start() the next full chunk is sent
    while the first request is still unanswered, and when that answer
    arrives the old loop goes on in the new session: two requests of the
    session "s2" are in flight together. *)
Lemma restart_breaks_single_flight :
  let s := run initial restart_during_flight in
  let s' := run initial old_pump_resumes in
  in_flight s = 2%nat /\ ~ single_flight s
  /\ (exists c1 c2,
        net s = [NetStart; NetChunk "s1" c1; NetFinish "s1";
                 NetStart; NetChunk "s2" c2])
  /\ in_flight s' = 2%nat /\ ~ single_flight s'
  /\ (exists c1 c2 c3,
        net s' = [NetStart; NetChunk "s1" c1; NetFinish "s1";
                  NetStart; NetChunk "s2" c2; NetChunk "s2" c3]).
Proof.
  cbv zeta.
  assert (H1 : in_flight (run initial restart_during_flight) = 2%nat)
    by (vm_compute; reflexivity).
  assert (H2 : in_flight (run initial old_pump_resumes) = 2%nat)
    by (vm_compute; reflexivity).
  repeat apply conj; try assumption.
  - intros [Hle _]. rewrite H1 in Hle. lia.
  - do 2 eexists. vm_compute. reflexivity.
  - intros [Hle _]. rewrite H2 in Hle. lia.
  - do 3 eexists. vm_compute. reflexivity.
Qed.

(** * More on the typed arrays and the resampler *)

(** X1. concatFloat32 never raises the RangeError of [set]: it returns
    the samples of [a] followed by those of [b], so the lengths add up
    and both arguments can be read back from the result. *)
Theorem concatFloat32_appends : forall a b : Float32Array.t,
  exists out,
    concatFloat32 a b = Some out
    /\ out = a ++ b
    /\ length out = (length a + length b)%nat
    /\ Float32Array.slice out 0 (length a) = a
    /\ Float32Array.slice_from out (length a) = b.
Proof.
  intros a b. exists (a ++ b). split; [apply concatFloat32_spec |].
  split; [reflexivity |]. split; [apply length_app |].
  rewrite slice_0. unfold Float32Array.slice_from. split.
  - rewrite firstn_app, Nat.sub_diag, firstn_all. cbn. apply app_nil_r.
  - rewrite skipn_app, Nat.sub_diag, skipn_all. reflexivity.
Qed.

Lemma resample_reads_in_range_witness :
  (0 <= Math_floor (inject_Z 1 / (1 # 2)) < 4)%Z.
Proof.
  apply (resample_reads_in_range 4 (1 # 2) 1). vm_compute. lia.
Defined.

(** What an index below the output length tells about the ratio. *)
Lemma resample_outLen_inv : forall (n : nat) (ratio : Q) (i : nat),
  (i < resample_outLen n ratio)%nat ->
  0 < ratio
  /\ inject_Z (Z.of_nat i) + (1 # 2) <= inject_Z (Z.of_nat n) * ratio.
Proof.
  intros n ratio i Hi. unfold resample_outLen in Hi.
  set (N := inject_Z (Z.of_nat n)) in *.
  assert (HI : 0 <= inject_Z (Z.of_nat i)).
  { change 0 with (inject_Z 0). rewrite <- Zle_Qle. lia. }
  assert (HN : 0 <= N).
  { unfold N. change 0 with (inject_Z 0). rewrite <- Zle_Qle. lia. }
  assert (Hk : (Z.of_nat i + 1 <= Math_round (N * ratio))%Z) by lia.
  rewrite Zle_Qle, inject_Z_plus in Hk. change (inject_Z 1) with 1 in Hk.
  destruct (Math_round_nearest (N * ratio)) as [Hlo _].
  assert (Hprod : inject_Z (Z.of_nat i) + (1 # 2) <= N * ratio) by lra.
  split; [| assumption].
  destruct (Qlt_le_dec 0 ratio) as [Hp | Hn]; [assumption |].
  assert (N * ratio <= 0).
  { setoid_replace (N * ratio) with (- (N * - ratio)) by ring.
    assert (0 <= N * - ratio) by (apply Qmult_le_0_compat; lra). lra. }
  lra.
Qed.

Lemma resample_index_bounds : forall (n : nat) (ratio : Q) (i : nat),
  (i < resample_outLen n ratio)%nat ->
  let x0 := Math_floor (inject_Z (Z.of_nat i) / ratio) in
  (0 <= x0 < Z.of_nat n)%Z
  /\ (0 <= Z.min (x0 + 1) (Z.of_nat n - 1) < Z.of_nat n)%Z.
Proof.
  intros n ratio i Hi x0.
  destruct (resample_outLen_inv n ratio i Hi) as [Hratio Hprod].
  assert (HI : 0 <= inject_Z (Z.of_nat i)).
  { change 0 with (inject_Z 0). rewrite <- Zle_Qle. lia. }
  assert (Hx_lo : 0 <= inject_Z (Z.of_nat i) / ratio).
  { apply Qle_shift_div_l; [assumption | lra]. }
  assert (Hx_hi : inject_Z (Z.of_nat i) / ratio < inject_Z (Z.of_nat n)).
  { apply Qlt_shift_div_r; [assumption | lra]. }
  assert (H0 : (0 <= x0)%Z).
  { unfold x0, Math_floor. change 0%Z with (Qfloor 0).
    now apply Qfloor_resp_le. }
  assert (H1 : (x0 < Z.of_nat n)%Z).
  { rewrite Zlt_Qlt. eapply Qle_lt_trans; [apply Qfloor_le | exact Hx_hi]. }
  lia.
Qed.

Lemma get_In : forall (a : Float32Array.t) (i : Z),
  (0 <= i < Z.of_nat (length a))%Z -> In (Float32Array.get a i) a.
Proof.
  intros a i H. unfold Float32Array.get.
  replace (i <? 0)%Z with false by (symmetry; apply Z.ltb_ge; lia).
  apply nth_In. lia.
Qed.

(** The interpolation weight lies between 0 and 1. *)
Lemma fraction_bounds : forall x : Q,
  0 <= x - inject_Z (Math_floor x) /\ x - inject_Z (Math_floor x) < 1.
Proof.
  intros x. unfold Math_floor.
  pose proof (Qfloor_le x) as H1. pose proof (Qlt_floor x) as H2.
  rewrite inject_Z_plus in H2. change (inject_Z 1) with 1 in H2.
  split; lra.
Qed.

Lemma convex_bounds : forall a b t lo hi : Q,
  lo <= a <= hi -> lo <= b <= hi -> 0 <= t -> t <= 1 ->
  lo <= a * (1 - t) + b * t <= hi.
Proof.
  intros a b t lo hi [Ha1 Ha2] [Hb1 Hb2] Ht0 Ht1.
  assert (H1 : 0 <= (a - lo) * (1 - t)) by (apply Qmult_le_0_compat; lra).
  assert (H2 : 0 <= (b - lo) * t) by (apply Qmult_le_0_compat; lra).
  assert (H3 : 0 <= (hi - a) * (1 - t)) by (apply Qmult_le_0_compat; lra).
  assert (H4 : 0 <= (hi - b) * t) by (apply Qmult_le_0_compat; lra).
  split.
  - setoid_replace (a * (1 - t) + b * t)
      with (lo + ((a - lo) * (1 - t) + (b - lo) * t)) by ring. lra.
  - setoid_replace (a * (1 - t) + b * t)
      with (hi - ((hi - a) * (1 - t) + (hi - b) * t)) by ring. lra.
Qed.

(** X3. The resampler does not overshoot: when every input sample lies
    between [lo] and [hi], so does every output sample. *)
Theorem resample_within_bounds :
  forall (input out : Float32Array.t) (srcSr dstSr lo hi : Q),
    (forall x, In x input -> lo <= x <= hi) ->
    resampleLinear input srcSr dstSr = Some out ->
    forall y, In y out -> lo <= y <= hi.
Proof.
  intros input out srcSr dstSr lo hi Hin H y Hy. unfold resampleLinear in H.
  destruct (Qeq_bool srcSr dstSr).
  { inversion H; subst. auto. }
  destruct (Qeq_bool srcSr 0).
  { destruct (_ && _); [discriminate |]. inversion H; subst. destruct Hy. }
  inversion H; subst. clear H.
  apply in_map_iff in Hy. destruct Hy as (i & <- & Hi).
  apply in_seq in Hi. cbn in Hi. destruct Hi as [_ Hi].
  pose proof (resample_index_bounds _ _ _ Hi) as Hrange.
  cbv zeta in Hrange. destruct Hrange as [Hx0 Hx1].
  unfold resample_at.
  destruct (fraction_bounds (inject_Z (Z.of_nat i) / (dstSr / srcSr)))
    as [Ht0 Ht1].
  apply convex_bounds; try lra; apply Hin; apply get_In; assumption.
Qed.

Lemma resample_within_bounds_witness :
  1 <= resample_at [1; 2; 3] (16000 / 8000) 1 <= 3.
Proof.
  apply (resample_within_bounds [1; 2; 3]
           (map (resample_at [1; 2; 3] (16000 / 8000)) (seq 0 6))
           8000 16000 1 3).
  - intros x [<- | [<- | [<- | []]]]; lra.
  - vm_compute. reflexivity.
  - right. left. reflexivity.
Defined.

Lemma Qmult_shrink : forall a r : Q, 0 <= a -> r <= 1 -> a * r <= a.
Proof.
  intros a r Ha Hr.
  assert (H : 0 <= a * (1 - r)) by (apply Qmult_le_0_compat; lra).
  setoid_replace (a * (1 - r)) with (a - a * r) in H by ring. lra.
Qed.

Lemma Qmult_grow : forall a r : Q, 0 <= a -> 1 <= r -> a <= a * r.
Proof.
  intros a r Ha Hr.
  assert (H : 0 <= a * (r - 1)) by (apply Qmult_le_0_compat; lra).
  setoid_replace (a * (r - 1)) with (a * r - a) in H by ring. lra.
Qed.

(** X4. Downsampling never lengthens a block and upsampling never
    shortens it. *)
Theorem resample_length_monotone :
  forall (input out : Float32Array.t) (srcSr dstSr : Q),
    resampleLinear input srcSr dstSr = Some out ->
    (0 < dstSr -> dstSr <= srcSr -> (length out <= length input)%nat)
    /\ (0 < srcSr -> srcSr <= dstSr -> (length input <= length out)%nat).
Proof.
  intros input out srcSr dstSr H.
  destruct (Qeq_dec srcSr dstSr) as [He | Hne].
  { rewrite resample_identity in H by assumption. inversion H. auto. }
  set (N := inject_Z (Z.of_nat (length input))).
  assert (HN : 0 <= N).
  { unfold N. change 0 with (inject_Z 0). rewrite <- Zle_Qle. lia. }
  split; intros Hpos Hle.
  - assert (Hnz : ~ srcSr == 0) by lra.
    rewrite (resampleLinear_length _ _ _ _ Hne Hnz H).
    unfold resample_outLen. fold N.
    destruct (Math_round_nearest (N * (dstSr / srcSr))) as [Hlo _].
    assert (Hr : dstSr / srcSr <= 1).
    { apply Qle_shift_div_r; lra. }
    assert (Hp : N * (dstSr / srcSr) <= N).
    { apply Qmult_shrink; assumption. }
    assert (Hk : inject_Z (Math_round (N * (dstSr / srcSr)))
                 < inject_Z (Z.of_nat (length input) + 1)).
    { rewrite inject_Z_plus. change (inject_Z 1) with 1. fold N. lra. }
    rewrite <- Zlt_Qlt in Hk. lia.
  - assert (Hnz : ~ srcSr == 0) by lra.
    rewrite (resampleLinear_length _ _ _ _ Hne Hnz H).
    unfold resample_outLen. fold N.
    destruct (Math_round_nearest (N * (dstSr / srcSr))) as [_ Hhi].
    assert (Hr : 1 <= dstSr / srcSr).
    { apply Qle_shift_div_l; lra. }
    assert (Hp : N <= N * (dstSr / srcSr)).
    { apply Qmult_grow; assumption. }
    assert (Hk : inject_Z (Z.of_nat (length input))
                 < inject_Z (Math_round (N * (dstSr / srcSr)) + 1)).
    { rewrite inject_Z_plus. change (inject_Z 1) with 1. fold N. lra. }
    rewrite <- Zlt_Qlt in Hk. lia.
Qed.

Lemma resample_length_monotone_witness :
  match resampleLinear [1; 2; 3; 4] 32000 16000 with
  | Some out => (length out <= 4)%nat
  | None => False
  end.
Proof.
  destruct (resampleLinear [1; 2; 3; 4] 32000 16000) as [out |] eqn:E.
  - apply (proj1 (resample_length_monotone _ _ _ _ E)).
    + reflexivity.
    + discriminate.
  - vm_compute in E. discriminate E.
Defined.






(** * More on the pump and the session controller *)

Lemma truthy_some : forall o sid,
  truthy o = Some sid -> o = Some sid /\ sid <> ""%string.
Proof.
  intros [[| a s] |] sid H; cbn in H; try discriminate.
  inversion H; subst. split; [reflexivity | discriminate].
Qed.

(** A run of the loop either sends the first chunk of the buffer under
    the session id and suspends, or ends past [finally]. *)
Lemma drain_sends : forall s,
  (exists b, drain s = pump_finally (set_bufferRef b s))
  \/ (exists sid,
        truthy (sessionIdRef s) = Some sid
        /\ (chunkSamples <= length (bufferRef s))%nat
        /\ drain s =
           call (NetChunk sid (firstn chunkSamples (bufferRef s)))
             Pump_apiPushChunk
             (set_bufferRef (skipn chunkSamples (bufferRef s)) s)).
Proof.
  intros s.
  destruct (recordingRef s) eqn:Hr.
  2:{ left. exists (bufferRef s).
      now rewrite set_bufferRef_same, drain_not_recording. }
  destruct (le_lt_dec chunkSamples (length (bufferRef s))) as [Hle | Hlt].
  2:{ left. exists (bufferRef s).
      now rewrite set_bufferRef_same, drain_short. }
  destruct (truthy (sessionIdRef s)) as [sid |] eqn:Hs.
  - right. exists sid. repeat split; auto. now apply drain_send.
  - left. eexists. apply drain_discard; assumption.
Qed.

Lemma filter_remove_nth_any : forall (f : Task -> bool) (l : list Task)
                                     (i : nat) (t : Task),
  nth_error l i = Some t ->
  length (filter f l)
  = (length (filter f (remove_nth i l)) + if f t then 1 else 0)%nat.
Proof.
  unfold remove_nth.
  induction l as [| a l IH]; intros i t H.
  - destruct i; discriminate.
  - destruct i as [| i]; cbn in H.
    + inversion H; subst. cbn. destruct (f t); cbn; lia.
    + specialize (IH i t H). cbn [firstn skipn app filter] in *.
      destruct (f a); cbn [length]; lia.
Qed.

Lemma stopping_call : forall c t s,
  stopping (call c t s) = (stopping s + if is_stopping t then 1 else 0)%nat.
Proof.
  intros c t s. unfold stopping. destruct s; cbn.
  rewrite filter_app, length_app. cbn. now destruct (is_stopping t).
Qed.

Lemma step_effect : forall s e, Effect s (step s e).
Proof.
  intros s e.
  assert (Hsame : forall s', s' = s -> Effect s s').
  { intros s' ->. now apply Eff_none. }
  destruct e as [| | input | i o]; cbn [step].
  - unfold handleStart. destruct (isRecording s) eqn:Hrec; [now apply Hsame |].
    apply Eff_start; auto; try now destruct s.
    rewrite stopping_call. cbn. destruct s; unfold stopping; cbn. lia.
  - unfold handleStop. destruct (isRecording s) eqn:Hrec; cbn [negb];
      [| now apply Hsame].
    unfold stopAudioPipeline_begin.
    apply Eff_stop; auto;
      destruct s as [? ? ? ? ? ? [a|] [|] ? ? ? ? ? ?]; cbn in *; auto;
      unfold stopping; cbn; rewrite filter_app, length_app; cbn; lia.
  - destruct (onaudioprocess s) as [sr |]; [| now apply Hsame].
    unfold audioprocess.
    destruct (recordingRef s); cbn [negb]; [| now apply Hsame].
    destruct (resampleLinear input sr TARGET_SR) as [resampled |];
      [| now apply Hsame].
    rewrite concatFloat32_spec. cbv zeta.
    destruct (pushingRef (set_bufferRef (bufferRef s ++ resampled) s)) eqn:Hp;
      cbn [negb].
    + apply Eff_none; now destruct s.
    + unfold pump. rewrite Hp.
      match goal with
      | |- context [drain ?x] =>
          destruct (drain_sends x) as [(b & E) | (sid & Hs & Hl & E)];
          rewrite E
      end.
      * apply Eff_none; now destruct s.
      * apply truthy_some in Hs. destruct Hs as [_ Hs].
        assert (Hb : bufferRef
                       (set_pushingRef true
                          (set_bufferRef (bufferRef s ++ resampled) s))
                     = bufferRef s ++ resampled) by now destruct s.
        rewrite Hb in *.
        apply (Eff_chunk _ _ sid
                 (firstn chunkSamples (bufferRef s ++ resampled)));
          [ now destruct s | now destruct s
          | rewrite stopping_call; destruct s; unfold stopping; cbn; lia
          | split; [exact Hs | now apply firstn_length_le]
          | now destruct s ].
  - destruct (nth_error (tasks s) i) as [t |] eqn:Ht; [| now apply Hsame].
    pose proof (filter_remove_nth_any is_stopping _ _ _ Ht) as Hcount.
    fold (stopping s) in Hcount.
    destruct t; cbn [resume is_stopping] in *.
    + destruct o; cbn; try now apply Hsame.
      * apply Eff_none; destruct s; cbn in *; auto.
        unfold stopping in *; cbn in *.
        rewrite filter_app, length_app. cbn. lia.
      * unfold handleStart_catch, stopAudioPipeline_begin.
        apply Eff_failed;
          destruct s as [? ? ? ? ? ? [a|] [|] ? ? ? ? ? ?]; cbn in *; auto;
          unfold stopping in *; cbn in *;
          rewrite filter_app, length_app; cbn; lia.
    + destruct o; cbn; try now apply Hsame.
      * apply Eff_none; destruct s; cbn in *; auto.
        unfold stopping in *; cbn in *. lia.
      * unfold handleStart_catch, stopAudioPipeline_begin.
        apply Eff_failed;
          destruct s as [? ? ? ? ? ? [a|] [|] ? ? ? ? ? ?]; cbn in *; auto;
          unfold stopping in *; cbn in *;
          rewrite filter_app, length_app; cbn; lia.
    + unfold handleStart_stopAudioPipeline.
      destruct (teardown_outcome o); [| now apply Hsame].
      apply Eff_none; destruct closing, s; cbn in *; auto;
        unfold stopping in *; cbn in *; lia.
    + unfold handleStop_stopAudioPipeline.
      destruct (teardown_outcome o); [| now apply Hsame].
      match goal with
      | |- context [truthy ?x] => destruct (truthy x) as [sid |] eqn:Hs
      end.
      * apply truthy_some in Hs. destruct Hs as [_ Hs].
        apply (Eff_finish _ _ sid); try exact Hs;
          destruct closing, s; cbn in *; auto;
          unfold stopping in *; cbn in *;
          rewrite filter_app, length_app; cbn; lia.
      * apply Eff_stopped; destruct closing, s; cbn in *; auto;
          unfold stopping in *; cbn in *; lia.
    + destruct o; cbn; try now apply Hsame.
      * apply Eff_none; destruct s; cbn in *; auto;
          unfold stopping in *; cbn in *; lia.
      * apply Eff_none; destruct s; cbn in *; auto;
          unfold stopping in *; cbn in *; lia.
    + destruct o; cbn [pump_resume]; try now apply Hsame.
      * match goal with
        | |- context [drain ?x] =>
            destruct (drain_sends x) as [(b & E) | (sid & Hs & Hl & E)];
            rewrite E
        end.
        -- apply Eff_none; destruct s; cbn in *; auto;
             unfold stopping in *; cbn in *; lia.
        -- apply truthy_some in Hs. destruct Hs as [_ Hs].
           match type of Hl with
           | (_ <= length (bufferRef ?x))%nat =>
               assert (Hb : bufferRef x = bufferRef s) by now destruct s
           end.
           rewrite Hb in *.
           apply (Eff_chunk _ _ sid (firstn chunkSamples (bufferRef s)));
             [ now destruct s | now destruct s
             | rewrite stopping_call; destruct s; cbn in *;
               unfold stopping in *; cbn in *; lia
             | split; [exact Hs | now apply firstn_length_le]
             | now destruct s ].
      * apply Eff_none; destruct s; cbn in *; auto;
          unfold stopping in *; cbn in *; lia.
Qed.

(** X12. In every execution, every request of the transport log carries
    a session id that is not empty, and every chunk sent has exactly
    [chunkSamples] = 8000 samples: no partial chunk is ever sent. *)
Theorem requests_well_formed : forall es : list Event,
  Forall well_formed (net (run initial es)) /\ chunkSamples = Z.to_nat 8000.
Proof.
  intros es. split; [| apply chunkSamples_eq].
  induction es as [| e es IH] using rev_ind; [constructor |].
  rewrite run_snoc.
  destruct (step_effect (run initial es) e)
    as [_ _ _ Hn | sid chunk _ _ _ Hw Hn | _ _ _ _ Hn | _ _ _ _ Hn
        | sid _ _ _ Hw Hn | _ _ _ Hn | _ _ _ Hn];
    rewrite Hn; try assumption;
    apply Forall_app; (split; [assumption |]);
    (constructor; [first [assumption | exact I] | constructor]).
Qed.

(** X13. In every execution the recording flag of the refs and the
    recording state of the component agree. *)
Theorem recording_flags_agree : forall es : list Event,
  recordingRef (run initial es) = isRecording (run initial es).
Proof.
  induction es as [| e es IH] using rev_ind; [reflexivity |].
  rewrite run_snoc.
  destruct (step_effect (run initial es) e)
    as [Hr Hi _ _ | sid chunk Hr Hi _ _ _ | _ Hi Hr _ _ | _ Hi Hr _ _
        | sid Hr Hi _ _ _ | Hr Hi _ _ | Hi Hr _ _];
    congruence.
Qed.

Lemma count_snoc : forall (f : NetCall -> bool) (l : list NetCall) (c : NetCall),
  length (filter f (l ++ [c]))
  = (length (filter f l) + if f c then 1 else 0)%nat.
Proof.
  intros f l c. rewrite filter_app, length_app. cbn.
  now destruct (f c).
Qed.

Lemma sessions_balance : forall es : list Event,
  let s := run initial es in
  (finishSession_calls s + stopping s + (if isRecording s then 1 else 0)
   <= startSession_calls s)%nat.
Proof.
  induction es as [| e es IH] using rev_ind; [cbn; lia |].
  rewrite run_snoc. cbv zeta in *.
  unfold finishSession_calls, startSession_calls in *.
  destruct (step_effect (run initial es) e)
    as [_ Hi Ht Hn | sid chunk _ Hi Ht _ Hn | Hi0 Hi _ Ht Hn | Hi0 Hi _ Ht Hn
        | sid _ Hi Ht _ Hn | _ Hi Ht Hn | Hi _ Ht Hn];
    rewrite Hn, ?count_snoc; cbn [is_finish is_start];
    rewrite ?Hi, ?Hi0 in *; try rewrite Ht in *;
    destruct (isRecording (run initial es)); lia.
Qed.

(** X14. In every execution the component has called finishSession at
    most as often as startSession. *)
Theorem finish_calls_bounded : forall es : list Event,
  (finishSession_calls (run initial es)
   <= startSession_calls (run initial es))%nat.
Proof. intros es. pose proof (sessions_balance es) as H. cbv zeta in H. lia. Qed.

(** X11. Backpressure: while the single-flight flag is set, capture
    blocks only accumulate.  Whatever their number, the buffer grows by
    the resampled blocks, in order; nothing is sent, nothing is dropped,
    and nothing else changes. *)
Theorem blocks_accumulate :
  forall (sampleRate : Q) (blocks : list Float32Array.t) (s : State),
    recordingRef s = true -> pushingRef s = true ->
    onaudioprocess s = Some sampleRate ->
    run s (map AudioProcess blocks)
    = set_bufferRef
        (bufferRef s ++ captured sampleRate (map AudioProcess blocks)) s.
Proof.
  intros sr blocks. induction blocks as [| b blocks IH]; intros s Hr Hp Hh.
  - cbn. now rewrite app_nil_r, set_bufferRef_same.
  - cbn [map captured].
    change (run s (?e :: ?es)) with (run (step s e) es).
    cbn [step]. rewrite Hh. unfold audioprocess. rewrite Hr. cbn [negb].
    destruct (resampleLinear b sr TARGET_SR) as [resampled |].
    + rewrite concatFloat32_spec. cbv zeta.
      replace (pushingRef (set_bufferRef (bufferRef s ++ resampled) s))
        with true by now destruct s.
      cbn [negb]. rewrite IH; try now destruct s.
      rewrite bufferRef_set, set_bufferRef_twice. now rewrite app_assoc.
    + now apply IH.
Qed.

Lemma blocks_accumulate_witness :
  let s := run initial first_chunk_in_flight in
  length (bufferRef (run s (map AudioProcess
                              [silence 4096; silence 4096; silence 4096])))
  = (192 + 3 * 4096)%nat.
Proof.
  intros s.
  rewrite (blocks_accumulate 16000
             [silence 4096; silence 4096; silence 4096] s);
    try (vm_compute; reflexivity).
Defined.

(** X15. A start() that fails tears everything down, whether
    /api/start or getUserMedia failed: the status is Error with the
    message "Start failed: ...", both recording flags are cleared, the
    session id is dropped and the refs of the audio pipeline are null.
    startSession was the only request: when getUserMedia fails after the
    service has issued a session id, that session is never finished. *)
Theorem start_failure_tears_down :
  forall (s : State) (j : Json) (err : string),
    isRecording s = false -> tasks s = [] ->
    forall s',
      s' = run s [ClickStart; Settle 0 (Rejected err); Settle 0 Settled]
      \/ s' = run s [ClickStart; Settle 0 (Fulfilled j);
                     Settle 0 (Rejected err); Settle 0 Settled] ->
      status s' = Error
      /\ errorMsg s' = ("Start failed: " ++ err)%string
      /\ isRecording s' = false /\ recordingRef s' = false
      /\ sessionIdRef s' = None
      /\ audioContextRef s' = None /\ processorRef s' = false
      /\ bufferRef s' = [] /\ tasks s' = []
      /\ net s' = net s ++ [NetStart].
Proof.
  intros s j err Hrec Ht s' Hs'.
  destruct s as [? ? ? ? ? ? [a|] [|] ? ? ? ? ? ?]; cbn in Hrec, Ht; subst;
    destruct Hs' as [-> | ->]; cbn; auto 12.
Qed.

Lemma start_failure_tears_down_witness :
  status (run initial [ClickStart; Settle 0 (ok_start "s1");
                       Settle 0 (Rejected "NotAllowedError");
                       Settle 0 Settled]) = Error.
Proof.
  apply (start_failure_tears_down initial
           (mkJson (Some "s1"%string) None None) "NotAllowedError"
           eq_refl eq_refl).
  right. reflexivity.
Defined.

(** X16. A finishSession that fails still ends the session: the status
    is Error with the message "Finish failed: ...", and the session id,
    the buffer and the single-flight flag are reset as after a
    successful stop(); the last partial transcript and language stay. *)
Theorem finish_failure_resets :
  forall (s : State) (sid err : string),
    isRecording s = true -> tasks s = [] ->
    truthy (sessionIdRef s) = Some sid ->
    let s' := run s [ClickStop; Settle 0 Settled; Settle 0 (Rejected err)] in
    status s' = Error
    /\ errorMsg s' = ("Finish failed: " ++ err)%string
    /\ sessionIdRef s' = None /\ bufferRef s' = [] /\ pushingRef s' = false
    /\ isRecording s' = false /\ recordingRef s' = false
    /\ tasks s' = []
    /\ net s' = net s ++ [NetFinish sid]
    /\ transcript s' = transcript s /\ language s' = language s.
Proof.
  intros s sid err Hrec Ht Hs.
  apply truthy_some in Hs. destruct Hs as [Hs Hne].
  destruct sid as [| c sid]; [congruence |].
  destruct s as [? ? ? ? ? ? [a|] [|] ? ? ? ? ? ?]; cbn in Hrec, Ht, Hs; subst;
    cbn; auto 12.
Qed.

Lemma finish_failure_resets_witness :
  let s := run initial [ClickStart; Settle 0 (ok_start "s1");
                        Settle 0 (Stream 16000)] in
  status (run s [ClickStop; Settle 0 Settled; Settle 0 (Rejected "boom")])
  = Error.
Proof.
  intros s.
  apply (finish_failure_resets s "s1" "boom");
    vm_compute; reflexivity.
Defined.

(** X17. stop() followed, once finishSession has answered, by start()
    begins afresh from every recording state, also one whose status is
    Error after a failed pushChunk: transcript, language, error message
    and buffer are empty, the status is Recording, the flags are set,
    and the only thing pending is the new startSession request. *)
Theorem stop_then_start_resets :
  forall (s : State) (fin : Outcome),
    isRecording s = true -> tasks s = [] -> is_answer fin = true ->
    let s' := run s [ClickStop; Settle 0 Settled; Settle 0 fin; ClickStart] in
    transcript s' = ""%string /\ language s' = ""%string
    /\ errorMsg s' = ""%string /\ bufferRef s' = []
    /\ status s' = Recording
    /\ isRecording s' = true /\ recordingRef s' = true
    /\ sessionIdRef s' = None /\ pushingRef s' = false
    /\ tasks s' = [HandleStart_apiStart]
    /\ startSession_calls s' = S (startSession_calls s).
Proof.
  intros s fin Hrec Ht Hfin.
  unfold startSession_calls.
  destruct s as [? ? ? ? ? [[| c sid] |] [a|] [|] ? ? ? ? ? ?];
    cbn in Hrec, Ht; subst;
    destruct fin; try discriminate; cbn;
    rewrite ?filter_app, ?length_app; cbn;
    repeat split; auto; lia.
Qed.

Lemma stop_then_start_resets_witness :
  let s := run initial push_fails in
  status s = Error
  /\ status (run s [ClickStop; Settle 0 Settled; Settle 0 (ok_text "");
                    ClickStart]) = Recording.
Proof.
  intros s. split; [vm_compute; reflexivity |].
  apply (stop_then_start_resets s (ok_text ""));
    vm_compute; reflexivity.
Defined.

(** X18. Every fulfilled pushChunk answer replaces the transcript and
    the language by the fields of the answer, empty when a field is
    missing, in whatever state it arrives (also after stop() has stored
    the final transcript); it leaves status and error message alone, so a
    later success does not clear an Error. *)
Theorem pushChunk_answer_replaces_transcript :
  forall (s : State) (i : nat) (j : Json),
    nth_error (tasks s) i = Some Pump_apiPushChunk ->
    let s' := step s (Settle i (Fulfilled j)) in
    transcript s' = or_empty (json_text j)
    /\ language s' = or_empty (json_language j)
    /\ status s' = status s /\ errorMsg s' = errorMsg s
    /\ isRecording s' = isRecording s.
Proof.
  intros s i j Ht. cbn [step]. rewrite Ht. cbn [resume pump_resume].
  match goal with
  | |- context [drain ?x] =>
      destruct (drain_cases x) as [(sid & chunk & b & E) | (b & E)];
      rewrite E
  end; now destruct s.
Qed.

Lemma pushChunk_answer_replaces_transcript_witness :
  let s := run initial (first_chunk_in_flight
                          ++ [ClickStop; Settle 1 Settled;
                              Settle 1 (ok_text "final")]) in
  transcript s = "final"%string
  /\ transcript (step s (Settle 0 (ok_text "part"))) = "part"%string.
Proof.
  intros s. split; [vm_compute; reflexivity |].
  apply (pushChunk_answer_replaces_transcript s 0
           (mkJson None (Some "en"%string) (Some "part"%string))).
  vm_compute. reflexivity.
Defined.

Lemma pushChunk_calls_call : forall c t s,
  pushChunk_calls (call c t s)
  = (pushChunk_calls s + if is_chunk c then 1 else 0)%nat.
Proof.
  intros c t s. unfold pushChunk_calls. destruct s; cbn.
  rewrite filter_app, length_app. cbn. now destruct (is_chunk c).
Qed.

(** Between the clicks of a session that is up, and as long as no
    pushChunk fails: the flag is set exactly while a request is in
    flight, a full chunk waits in the buffer only while one is, and the
    samples sent grow by [chunkSamples] with every request. *)
Lemma quiet_step : forall sr s e,
  session_up sr s -> single_flight s ->
  (pushingRef s = true -> in_flight s = 1%nat) ->
  (in_flight s = 0%nat -> (length (bufferRef s) < chunkSamples)%nat) ->
  is_click e = false -> is_rejection e = false ->
  (pushingRef (step s e) = true -> in_flight (step s e) = 1%nat)
  /\ (in_flight (step s e) = 0%nat ->
      (length (bufferRef (step s e)) < chunkSamples)%nat)
  /\ (pushChunk_calls s <= pushChunk_calls (step s e))%nat
  /\ (length (delivered (net (step s e))) + chunkSamples * pushChunk_calls s
      = length (delivered (net s))
        + chunkSamples * pushChunk_calls (step s e))%nat.
Proof.
  intros sr s e [Hrec [sid Hsid] Hh Ht] [Hle Hflag] Hset Hshort He Hrej.
  assert (Hsame : (pushingRef s = true -> in_flight s = 1%nat)
                  /\ (in_flight s = 0%nat ->
                      (length (bufferRef s) < chunkSamples)%nat)
                  /\ (pushChunk_calls s <= pushChunk_calls s)%nat
                  /\ (length (delivered (net s))
                      + chunkSamples * pushChunk_calls s
                      = length (delivered (net s))
                        + chunkSamples * pushChunk_calls s)%nat)
    by auto.
  assert (Hsent : forall s2 : State,
             net s2 = net s -> tasks s2 = [] \/ in_flight s2 = 0%nat ->
             (chunkSamples <= length (bufferRef s2))%nat ->
             let s' := call (NetChunk sid (firstn chunkSamples (bufferRef s2)))
                         Pump_apiPushChunk
                         (set_bufferRef (skipn chunkSamples (bufferRef s2)) s2)
             in
             in_flight s2 = 0%nat ->
             (pushingRef s' = true -> in_flight s' = 1%nat)
             /\ (in_flight s' = 0%nat ->
                 (length (bufferRef s') < chunkSamples)%nat)
             /\ (pushChunk_calls s <= pushChunk_calls s')%nat
             /\ (length (delivered (net s'))
                 + chunkSamples * pushChunk_calls s
                 = length (delivered (net s))
                   + chunkSamples * pushChunk_calls s')%nat).
  { intros s2 Hn _ Hl s' H0. subst s'.
    rewrite in_flight_call, pushChunk_calls_call. cbn [is_push is_chunk].
    assert (Hc : pushChunk_calls
                   (set_bufferRef (skipn chunkSamples (bufferRef s2)) s2)
                 = pushChunk_calls s).
    { unfold pushChunk_calls. destruct s2; cbn in *. now rewrite Hn. }
    assert (Hf : in_flight
                   (set_bufferRef (skipn chunkSamples (bufferRef s2)) s2)
                 = 0%nat) by (destruct s2; exact H0).
    rewrite Hc, Hf.
    assert (Hd : net (call (NetChunk sid (firstn chunkSamples (bufferRef s2)))
                        Pump_apiPushChunk
                        (set_bufferRef (skipn chunkSamples (bufferRef s2)) s2))
                 = net s ++ [NetChunk sid (firstn chunkSamples (bufferRef s2))]).
    { destruct s2; cbn in *. now rewrite Hn. }
    rewrite Hd, delivered_app, length_app. cbn [delivered].
    rewrite app_nil_r, firstn_length_le by assumption.
    rewrite Nat.mul_add_distr_l, Nat.mul_1_r.
    repeat split; intros; lia. }
  destruct e as [| | input | i o]; try discriminate; cbn [step].
  - rewrite Hh. unfold audioprocess. rewrite Hrec. cbn [negb].
    destruct (resampleLinear input sr TARGET_SR) as [resampled |];
      [| exact Hsame].
    rewrite concatFloat32_spec. cbv zeta.
    destruct (pushingRef (set_bufferRef (bufferRef s ++ resampled) s)) eqn:Hp;
      cbn [negb].
    + assert (Hps : pushingRef s = true) by (destruct s; exact Hp).
      specialize (Hset Hps).
      destruct s; cbn in *. unfold in_flight, pushChunk_calls in *; cbn in *.
      repeat split; auto; intros; lia.
    + assert (Hps : pushingRef s = false) by (destruct s; exact Hp).
      assert (H0 : in_flight s = 0%nat).
      { destruct (in_flight s) as [| [| n]] eqn:E; [reflexivity | | lia].
        specialize (Hflag eq_refl). congruence. }
      unfold pump. rewrite Hp.
      set (s2 := set_pushingRef true
                   (set_bufferRef (bufferRef s ++ resampled) s)).
      destruct (le_lt_dec chunkSamples (length (bufferRef s2))) as [Hl | Hl].
      * rewrite (drain_send s2 sid); [| now destruct s | assumption
                                      | now destruct s].
        apply Hsent; auto; now destruct s.
      * rewrite drain_short by assumption. subst s2.
        destruct s; cbn in *. unfold in_flight, pushChunk_calls in *;
          cbn in *.
        repeat split; auto; intros; try lia; discriminate.
  - destruct (nth_error (tasks s) i) as [t |] eqn:Hi; [| exact Hsame].
    pose proof (forallb_nth_error _ _ _ Ht Hi) as Hpush.
    destruct t; try discriminate. cbn [resume].
    pose proof (filter_remove_nth _ _ _ Hi) as Hcount. cbn [is_push] in Hcount.
    unfold in_flight in Hle, Hflag, Hset, Hshort.
    assert (H0 : length (filter is_push (remove_nth i (tasks s))) = 0%nat)
      by lia.
    destruct o as [j | sr' | | err]; cbn [pump_resume];
      try exact Hsame; [| discriminate].
    set (s2 := set_transcript _ _).
    assert (Hb2 : bufferRef s2 = bufferRef s) by now destruct s.
    destruct (le_lt_dec chunkSamples (length (bufferRef s2))) as [Hl | Hl].
    + rewrite (drain_send s2 sid); [| now destruct s | assumption
                                    | now destruct s].
      apply Hsent; auto; now destruct s.
    + rewrite drain_short by assumption. subst s2.
      destruct s; cbn in *. unfold in_flight, pushChunk_calls in *; cbn in *.
      repeat split; auto; intros; try lia; discriminate.
Qed.

Lemma quiet_run : forall sr es s,
  session_up sr s -> single_flight s ->
  (pushingRef s = true -> in_flight s = 1%nat) ->
  (in_flight s = 0%nat -> (length (bufferRef s) < chunkSamples)%nat) ->
  existsb is_click es = false -> existsb is_rejection es = false ->
  (in_flight (run s es) = 0%nat ->
   (length (bufferRef (run s es)) < chunkSamples)%nat)
  /\ (pushChunk_calls s <= pushChunk_calls (run s es))%nat
  /\ (length (delivered (net (run s es))) + chunkSamples * pushChunk_calls s
      = length (delivered (net s))
        + chunkSamples * pushChunk_calls (run s es))%nat
  /\ delivered (net (run s es)) ++ bufferRef (run s es)
     = (delivered (net s) ++ bufferRef s) ++ captured sr es.
Proof.
  intros sr es. induction es as [| e es IH];
    intros s Hup Hsf Hset Hshort Hc Hr.
  - cbn. rewrite app_nil_r. auto.
  - cbn [existsb] in Hc, Hr.
    apply orb_false_elim in Hc. destruct Hc as [He Hc].
    apply orb_false_elim in Hr. destruct Hr as [Hj Hr].
    destruct (session_step sr s e Hup Hsf He) as (Hup' & Hsf' & Hd).
    destruct (quiet_step sr s e Hup Hsf Hset Hshort He Hj)
      as (Hset' & Hshort' & Hle & Hlen).
    destruct (IH (step s e) Hup' Hsf' Hset' Hshort' Hc Hr)
      as (Hshort'' & Hle' & Hlen' & Hd').
    change (run s (e :: es)) with (run (step s e) es).
    repeat split.
    + assumption.
    + lia.
    + lia.
    + rewrite Hd', Hd, (captured_cons sr e es). now rewrite <- !app_assoc.
Qed.

Lemma app_eq_firstn_skipn : forall (x b l : list Q),
  x ++ b = l -> x = firstn (length x) l /\ b = skipn (length x) l.
Proof.
  intros x b l <-. split.
  - rewrite firstn_app, Nat.sub_diag, firstn_all. cbn. now rewrite app_nil_r.
  - rewrite skipn_app, Nat.sub_diag, skipn_all. reflexivity.
Qed.

(** X10. A session without failures sends exactly the full chunks of
    what it captured.  From a session that is up with an empty buffer
    and nothing in flight, after any capture blocks and pushChunk
    answers (no click, no failed pushChunk), once no request is in
    flight: with T the number of samples captured, T div 8000 requests
    were sent, they carry the first 8000 * (T div 8000) captured samples
    in order, and the last T mod 8000 samples wait in the buffer. *)
Theorem session_sends_full_chunks : forall sr es s,
  session_up sr s -> tasks s = [] -> pushingRef s = false ->
  bufferRef s = [] ->
  existsb is_click es = false -> existsb is_rejection es = false ->
  in_flight (run s es) = 0%nat ->
  let T := length (captured sr es) in
  let sent := (chunkSamples * (T / chunkSamples))%nat in
  pushChunk_calls (run s es) = (pushChunk_calls s + T / chunkSamples)%nat
  /\ delivered (net (run s es))
     = delivered (net s) ++ firstn sent (captured sr es)
  /\ bufferRef (run s es) = skipn sent (captured sr es)
  /\ length (bufferRef (run s es)) = (T mod chunkSamples)%nat.
Proof.
  intros sr es s Hup Ht Hp Hb Hc Hr Hquiet T sent.
  pose proof chunkSamples_pos as HC.
  assert (H0 : in_flight s = 0%nat) by (unfold in_flight; now rewrite Ht).
  destruct (quiet_run sr es s Hup) as (Hshort & Hle & Hlen & Hd); auto.
  - split; [lia | intros; lia].
  - intros. congruence.
  - intros _. rewrite Hb. cbn. lia.
  - specialize (Hshort Hquiet). rewrite Hb, app_nil_r in Hd.
    set (s' := run s es) in *.
    set (m := (pushChunk_calls s' - pushChunk_calls s)%nat).
    assert (Hcalls : pushChunk_calls s' = (pushChunk_calls s + m)%nat)
      by (unfold m; lia).
    rewrite Hcalls, Nat.mul_add_distr_l in Hlen.
    assert (HT : T = (chunkSamples * m + length (bufferRef s'))%nat).
    { assert (Hl : length (delivered (net s') ++ bufferRef s')
                   = length (delivered (net s) ++ captured sr es))
        by now rewrite Hd.
      rewrite !length_app in Hl. fold T in Hl. lia. }
    assert (Hm : (T / chunkSamples)%nat = m).
    { symmetry. eapply Nat.div_unique; [exact Hshort | exact HT]. }
    assert (Hmod : (T mod chunkSamples)%nat = length (bufferRef s')).
    { symmetry. eapply Nat.mod_unique; [exact Hshort | exact HT]. }
    assert (Hsent : length (delivered (net s'))
                    = (length (delivered (net s)) + sent)%nat).
    { unfold sent. rewrite Hm. lia. }
    apply app_eq_firstn_skipn in Hd. destruct Hd as [Hx Hy].
    rewrite Hsent in Hx, Hy.
    repeat split.
    + now rewrite Hm.
    + rewrite Hx, firstn_app, firstn_all2 by lia.
      now replace (length (delivered (net s)) + sent
                   - length (delivered (net s)))%nat with sent by lia.
    + rewrite Hy, skipn_app, skipn_all2 by lia. cbn.
      now replace (length (delivered (net s)) + sent
                   - length (delivered (net s)))%nat with sent by lia.
    + now rewrite Hmod.
Qed.

Lemma session_sends_full_chunks_witness :
  let s := run initial [ClickStart; Settle 0 (ok_start "s1");
                        Settle 0 (Stream 16000)] in
  let es := [AudioProcess (silence 4096); AudioProcess (silence 4096);
             Settle 0 (ok_text "a");
             AudioProcess (silence 4096); AudioProcess (silence 4096);
             Settle 0 (ok_text "a b")] in
  pushChunk_calls (run s es) = 2%nat
  /\ length (bufferRef (run s es)) = 384%nat.
Proof.
  intros s es.
  destruct (session_sends_full_chunks 16000 es s)
    as (Hcalls & _ & _ & Hbuf); try (vm_compute; reflexivity).
  - constructor; try (vm_compute; reflexivity).
    exists "s1"%string. vm_compute. reflexivity.
  - split; [rewrite Hcalls | rewrite Hbuf]; vm_compute; reflexivity.
Defined.

Lemma pump_loop_total_witness :
  let s := run initial full_chunk_waiting in
  exists s', pump_loop (length (bufferRef s)) s = Some s'.
Proof.
  intros s. apply (pump_loop_total (length (bufferRef s)) s). apply le_n.
Defined.
